(** * Dynamic form builder: schema editor and form engine

    A shallow embedding of the schema editor ([SchemaEditor],
    [FieldEditorRow]) and of the form engine ([DynamicForm]: [validate] and
    [handleSubmit]) together with the properties of the specification that
    concern them.

    Conventions of the embedding.
    - JavaScript objects used as string-keyed maps ([values], [newErrors],
      [data]) are the finite maps [gmap string _] of their own properties.
      An assignment [m[k] = v] is [objAssign]: it stores nothing under the
      key [__proto__].  A read [m[k] ?? ''] is [default "" (m !! k)]; this
      is what the source reads when [k] is an own property of [m] or is not
      the name of a property that every object inherits, which the
      properties that depend on such reads assume of the field identifiers
      ([ordinaryIds]).
    - An optional attribute [a?: T] is [option T] ([None] is [undefined]);
      a key of a [Partial<_>] patch is [option] of the attribute's type
      ([None]: the key is absent from the patch), so that a patch can carry
      an explicit [undefined] for an optional attribute.
    - The built-ins of the host language ([String.prototype.trim], [Number],
      [Number.isNaN], [<] on numbers, number-to-string conversion, [RegExp])
      are the operations of the class [JSRuntime]; every property is proved
      for an arbitrary runtime.  The clock ([new Date().toISOString()]) and
      the identifier generator ([generateId]) are read by the caller and
      passed as arguments. *)

From Stdlib Require Import Ascii.
From stdpp Require Import gmap strings list fin_maps pretty.

Local Open Scope string_scope.

(** ** The host language's built-ins *)

Class JSRuntime := {
  (** the type of JavaScript numbers *)
  JSnum : Type;
  (** [Number(s)] *)
  Number : string → JSnum;
  (** [Number.isNaN(x)] *)
  Number_isNaN : JSnum → bool;
  (** [x < y]; [x > y] is [y < x] *)
  num_lt : JSnum → JSnum → bool;
  (** the conversion of a number to a string in a template literal *)
  num_toString : JSnum → string;
  (** [s.trim()] *)
  String_trim : string → string;
  (** compiled regular expressions *)
  RegExpObj : Type;
  (** [new RegExp(p)]; [None] when the constructor throws a [SyntaxError] *)
  RegExp : string → option RegExpObj;
  (** [re.test(s)] *)
  RegExp_test : RegExpObj → string → bool
}.

(** Facts of the language about these built-ins, assumed only by the
    properties that name them. *)

(** [Number] ignores the white space that [trim] removes. *)
Definition Number_ignores_trim `{JSRuntime} : Prop :=
  ∀ s, Number (String_trim s) = Number s.

(** Trimming the empty string gives the empty string. *)
Definition trim_empty `{JSRuntime} : Prop :=
  String_trim "" = "".

(** The regular expression compiled from the empty pattern matches every
    string. *)
Definition empty_pattern_matches `{JSRuntime} : Prop :=
  ∀ re s, RegExp "" = Some re → RegExp_test re s = true.

(** ** Data model (types.ts) *)

Inductive FieldType := text | number | date | select.

#[global] Instance FieldType_eq_dec : EqDecision FieldType.
Proof. solve_decision. Defined.

Inductive FormLayout := single_column | two_column.

Module FieldSchema.
Record t {RT : JSRuntime} := mk {
  id : string;
  name : string;
  label : string;
  type : FieldType;
  required : option bool;
  placeholder : option string;
  min : option JSnum;
  max : option JSnum;
  pattern : option string;
  options : option (list string)
}.
End FieldSchema.

(** [Partial<FieldSchema>] *)
Module FieldPatch.
Record t {RT : JSRuntime} := mk {
  id : option string;
  name : option string;
  label : option string;
  type : option FieldType;
  required : option (option bool);
  placeholder : option (option string);
  min : option (option JSnum);
  max : option (option JSnum);
  pattern : option (option string);
  options : option (option (list string))
}.

(** The assignment [patch.options = v]. *)
Definition set_options {RT : JSRuntime} (patch : t)
    (v : option (list string)) : t :=
  mk RT (id patch) (name patch) (label patch) (type patch) (required patch)
     (placeholder patch) (min patch) (max patch) (pattern patch) (Some v).
End FieldPatch.

Module FormSchema.
Record t {RT : JSRuntime} := mk {
  id : string;
  name : string;
  description : option string;
  layout : FormLayout;
  fields : list FieldSchema.t;
  createdAt : string;
  updatedAt : string
}.
End FormSchema.

(** [Partial<FormSchema>] *)
Module SchemaPatch.
Record t {RT : JSRuntime} := mk {
  id : option string;
  name : option string;
  description : option (option string);
  layout : option FormLayout;
  fields : option (list FieldSchema.t);
  createdAt : option string;
  updatedAt : option string
}.
End SchemaPatch.

(** Values stored in a submitted record ([unknown] in the source: a string or
    a number). *)
Inductive JSValue {RT : JSRuntime} :=
  | VString (s : string)
  | VNumber (n : JSnum).

(** ** Plain objects used as maps *)

(** The names of the properties of [Object.prototype], which every plain
    object inherits. *)
Definition inheritedKeys : list string :=
  ["__proto__"; "constructor"; "hasOwnProperty"; "isPrototypeOf";
   "propertyIsEnumerable"; "toLocaleString"; "toString"; "valueOf";
   "__defineGetter__"; "__defineSetter__"; "__lookupGetter__";
   "__lookupSetter__"].

(** The assignment [m[k] = v] on a plain object, for a string or a number
    [v]: under the key [__proto__] the setter inherited from
    [Object.prototype] ignores such a value and no own property is created;
    under every other key the own property is created or overwritten. *)
Definition objAssign {V : Type} (k : string) (v : V) (m : gmap string V)
  : gmap string V :=
  if bool_decide (k = "__proto__") then m else <[k := v]> m.

(** ** The form engine (components/DynamicForm.tsx) *)

Section DynamicForm.
Context `{RT : JSRuntime}.

(** [values[field.id] ?? ''] *)
Definition rawOf (values : gmap string string) (field : FieldSchema.t)
  : string :=
  default "" (values !! FieldSchema.id field).

(** [typeof b === 'number' && viol(b)] for an optional bound [b]: the bound
    when it is set and violated. *)
Definition violatedBound (b : option JSnum) (viol : JSnum → bool)
  : option JSnum :=
  match b with
  | Some x => if viol x then Some x else None
  | None => None
  end.

(** The checks of a number field: the body of
    [if (field.type === 'number') { ... }]; [Some e] stands for
    [newErrors[field.id] = e; continue]. *)
Definition numberError (field : FieldSchema.t) (trimmed : string)
  : option string :=
  let num := Number trimmed in
  if Number_isNaN num then Some "Must be a valid number"
  else
    match violatedBound (FieldSchema.min field) (λ lo, num_lt num lo) with
    | Some lo => Some ("Must be ≥ " +:+ num_toString lo)
    | None =>
        match violatedBound (FieldSchema.max field) (λ hi, num_lt hi num) with
        | Some hi => Some ("Must be ≤ " +:+ num_toString hi)
        | None => None
        end
    end.

(** The pattern check of a text field: the [try { ... } catch { }] block. *)
Definition patternError (p : string) (trimmed : string) : option string :=
  match RegExp p with
  | Some regex =>
      if negb (RegExp_test regex trimmed)
      then Some "Value does not match required format"
      else None
  | None => None
  end.

(** Truthiness of [field.required] and of [field.pattern]. *)
Definition truthy_bool (b : option bool) : bool := default false b.

Definition truthy_string (s : option string) : bool :=
  match s with
  | Some s => negb (bool_decide (s = ""))
  | None => false
  end.

(** One iteration of the loop of [validate]: the error assigned to
    [newErrors[field.id]], if any. *)
Definition fieldError (values : gmap string string) (field : FieldSchema.t)
  : option string :=
  let rawValue := rawOf values field in
  let trimmed := String_trim rawValue in
  if truthy_bool (FieldSchema.required field) && bool_decide (trimmed = "")
  then Some "This field is required"
  else if bool_decide (trimmed = "") then None
  else
    match
      (if bool_decide (FieldSchema.type field = number)
       then numberError field trimmed else None)
    with
    | Some e => Some e
    | None =>
        if bool_decide (FieldSchema.type field = text)
           && truthy_string (FieldSchema.pattern field)
        then patternError (default "" (FieldSchema.pattern field)) trimmed
        else None
    end.

(** The loop of [validate]: [newErrors] after all fields. *)
Definition validateStep (values : gmap string string)
    (newErrors : gmap string string) (field : FieldSchema.t)
  : gmap string string :=
  match fieldError values field with
  | Some e => objAssign (FieldSchema.id field) e newErrors
  | None => newErrors
  end.

Definition newErrorsOf (schema : FormSchema.t) (values : gmap string string)
  : gmap string string :=
  foldl (validateStep values) ∅ (FormSchema.fields schema).

(** [validate]: the error map stored by [setErrors] and the boolean
    returned, [Object.keys(newErrors).length === 0]. *)
Definition validate (schema : FormSchema.t) (values : gmap string string)
  : gmap string string * bool :=
  let newErrors := newErrorsOf schema values in
  (newErrors, bool_decide (size newErrors = 0)).

(** The value written for one field by [handleSubmit]. *)
Definition parsedOf (values : gmap string string) (field : FieldSchema.t)
  : JSValue :=
  let raw := rawOf values field in
  if bool_decide (FieldSchema.type field = number)
     && negb (bool_decide (String_trim raw = ""))
  then VNumber (Number raw)
  else VString raw.

(** The body of the [forEach] of [handleSubmit]:
    [data[field.name] = parsed]. *)
Definition writeField (values : gmap string string)
    (data : gmap string JSValue) (field : FieldSchema.t)
  : gmap string JSValue :=
  objAssign (FieldSchema.name field) (parsedOf values field) data.

(** The record built by the [forEach] of [handleSubmit]. *)
Definition coerce (schema : FormSchema.t) (values : gmap string string)
  : gmap string JSValue :=
  foldl (writeField values) ∅ (FormSchema.fields schema).

(** [handleSubmit]: the record passed to [onSubmit], or [None] when
    validation fails and the handler returns early.  (The form that
    carries this handler is rendered only for a schema with at least one
    field.) *)
Definition handleSubmit (schema : FormSchema.t)
    (values : gmap string string) : option (gmap string JSValue) :=
  if (validate schema values).2 then Some (coerce schema values) else None.

End DynamicForm.


(** ** The schema editor (components/SchemaEditor.tsx) *)

Section SchemaEditor.
Context `{RT : JSRuntime}.

(** [{ ...schema, ...patch, updatedAt: new Date().toISOString() }], the
    schema passed to [onChange]; [now] is the clock's reading. *)
Definition updateSchema (schema : FormSchema.t) (patch : SchemaPatch.t)
    (now : string) : FormSchema.t :=
  {| FormSchema.id := default (FormSchema.id schema) (SchemaPatch.id patch);
     FormSchema.name :=
       default (FormSchema.name schema) (SchemaPatch.name patch);
     FormSchema.description :=
       default (FormSchema.description schema) (SchemaPatch.description patch);
     FormSchema.layout :=
       default (FormSchema.layout schema) (SchemaPatch.layout patch);
     FormSchema.fields :=
       default (FormSchema.fields schema) (SchemaPatch.fields patch);
     FormSchema.createdAt :=
       default (FormSchema.createdAt schema) (SchemaPatch.createdAt patch);
     FormSchema.updatedAt := now |}.

(** [{ ...f, ...patch }] *)
Definition spreadField (f : FieldSchema.t) (patch : FieldPatch.t)
  : FieldSchema.t :=
  {| FieldSchema.id := default (FieldSchema.id f) (FieldPatch.id patch);
     FieldSchema.name := default (FieldSchema.name f) (FieldPatch.name patch);
     FieldSchema.label :=
       default (FieldSchema.label f) (FieldPatch.label patch);
     FieldSchema.type := default (FieldSchema.type f) (FieldPatch.type patch);
     FieldSchema.required :=
       default (FieldSchema.required f) (FieldPatch.required patch);
     FieldSchema.placeholder :=
       default (FieldSchema.placeholder f) (FieldPatch.placeholder patch);
     FieldSchema.min := default (FieldSchema.min f) (FieldPatch.min patch);
     FieldSchema.max := default (FieldSchema.max f) (FieldPatch.max patch);
     FieldSchema.pattern :=
       default (FieldSchema.pattern f) (FieldPatch.pattern patch);
     FieldSchema.options :=
       default (FieldSchema.options f) (FieldPatch.options patch) |}.

(** The patches [{ fields }], [{ layout }], [{ name }], [{ description }]. *)
Definition fieldsPatch (fs : list FieldSchema.t) : SchemaPatch.t :=
  SchemaPatch.mk RT None None None None (Some fs) None None.

Definition layoutPatch (l : FormLayout) : SchemaPatch.t :=
  SchemaPatch.mk RT None None None (Some l) None None None.

Definition namePatch (n : string) : SchemaPatch.t :=
  SchemaPatch.mk RT None (Some n) None None None None None.

Definition descriptionPatch (d : string) : SchemaPatch.t :=
  SchemaPatch.mk RT None None (Some (Some d)) None None None None.

Definition updateField (schema : FormSchema.t) (fieldId : string)
    (patch : FieldPatch.t) (now : string) : FormSchema.t :=
  let updatedFields :=
    map (λ f, if bool_decide (FieldSchema.id f = fieldId)
              then spreadField f patch else f)
        (FormSchema.fields schema) in
  updateSchema schema (fieldsPatch updatedFields) now.

(** [newId] is the identifier returned by [generateId()]. *)
Definition addField (schema : FormSchema.t) (newId : string) (now : string)
  : FormSchema.t :=
  let index := length (FormSchema.fields schema) + 1 in
  let newField :=
    {| FieldSchema.id := newId;
       FieldSchema.name := "field_" +:+ pretty index;
       FieldSchema.label := "Field " +:+ pretty index;
       FieldSchema.type := text;
       FieldSchema.required := Some false;
       FieldSchema.placeholder := Some "";
       FieldSchema.min := None;
       FieldSchema.max := None;
       FieldSchema.pattern := None;
       FieldSchema.options := None |} in
  updateSchema schema
    (fieldsPatch (FormSchema.fields schema ++ [newField])%list) now.

Definition removeField (schema : FormSchema.t) (fieldId : string)
    (now : string) : FormSchema.t :=
  updateSchema schema
    (fieldsPatch
       (filter (λ f, FieldSchema.id f ≠ fieldId) (FormSchema.fields schema)))
    now.

Definition handleLayoutChange (schema : FormSchema.t) (value : FormLayout)
    (now : string) : FormSchema.t :=
  updateSchema schema (layoutPatch value) now.

(** The [onChange] handlers of the name input and of the description
    textarea. *)
Definition handleNameChange (schema : FormSchema.t) (value : string)
    (now : string) : FormSchema.t :=
  updateSchema schema (namePatch value) now.

Definition handleDescriptionChange (schema : FormSchema.t) (value : string)
    (now : string) : FormSchema.t :=
  updateSchema schema (descriptionPatch value) now.

(** [handleTypeChange] of [FieldEditorRow]: the patch passed to [onChange]. *)
Definition handleTypeChange (newType : FieldType) : FieldPatch.t :=
  let patch :=
    FieldPatch.mk RT None None None (Some newType) None None None None None
      None in
  if bool_decide (newType ≠ select)
  then FieldPatch.set_options patch None
  else patch.

(** A type change made in the row of [field]: the row's [onChange] is
    [(patch) => updateField(field.id, patch)]. *)
Definition rowTypeChange (schema : FormSchema.t) (field : FieldSchema.t)
    (newType : FieldType) (now : string) : FormSchema.t :=
  updateField schema (FieldSchema.id field) (handleTypeChange newType) now.

(** The mutating operations of the editor, as the events its controls
    raise. *)
Inductive EditorEvent :=
  | AddField (newId : string)
  | UpdateField (fieldId : string) (patch : FieldPatch.t)
  | RemoveField (fieldId : string)
  | LayoutChange (value : FormLayout)
  | NameChange (value : string)
  | DescriptionChange (value : string).

Definition dispatch (schema : FormSchema.t) (ev : EditorEvent) (now : string)
  : FormSchema.t :=
  match ev with
  | AddField newId => addField schema newId now
  | UpdateField fieldId patch => updateField schema fieldId patch now
  | RemoveField fieldId => removeField schema fieldId now
  | LayoutChange value => handleLayoutChange schema value now
  | NameChange value => handleNameChange schema value now
  | DescriptionChange value => handleDescriptionChange schema value now
  end.

End SchemaEditor.

(** ** A reference runtime

    A small executable runtime on which the model can be run: white space is
    the ASCII white space, [Number] reads optionally signed decimal integer
    literals (the empty string is [0], anything else is [NaN]), and a pattern
    made of letters and digits only compiles to a search for that text
    (any other pattern is refused).  On ASCII strings, integer literals
    that a double holds exactly and patterns of letters and digits it
    computes what the language computes; it stands for nothing beyond
    them. *)

Module RefRuntime.

Definition is_space (c : ascii) : bool :=
  let n := Ascii.N_of_ascii c in
  bool_decide (n = 32 ∨ (9 ≤ n ∧ n ≤ 13))%N.

Definition is_digit (c : ascii) : bool :=
  let n := Ascii.N_of_ascii c in
  bool_decide (48 ≤ n ∧ n ≤ 57)%N.

Definition is_alnum (c : ascii) : bool :=
  let n := Ascii.N_of_ascii c in
  is_digit c || bool_decide ((65 ≤ n ∧ n ≤ 90) ∨ (97 ≤ n ∧ n ≤ 122))%N.

Fixpoint ltrim (s : string) : string :=
  match s with
  | String c r => if is_space c then ltrim r else s
  | EmptyString => EmptyString
  end.

Fixpoint rtrim (s : string) : string :=
  match s with
  | String c r =>
      match rtrim r with
      | EmptyString => if is_space c then EmptyString else String c EmptyString
      | r' => String c r'
      end
  | EmptyString => EmptyString
  end.

Definition trim (s : string) : string := rtrim (ltrim s).

(** Numbers: [None] is [NaN]. *)
Definition num : Type := option Z.

Fixpoint digits (s : string) (acc : Z) : option Z :=
  match s with
  | String c r =>
      if is_digit c
      then digits r (10 * acc + (Z.of_N (Ascii.N_of_ascii c) - 48))%Z
      else None
  | EmptyString => Some acc
  end.

Definition unsigned (s : string) : option Z :=
  match s with
  | EmptyString => None
  | _ => digits s 0
  end.

Definition parse (s : string) : num :=
  match s with
  | EmptyString => Some 0%Z
  | String "+"%char r => unsigned r
  | String "-"%char r => Z.opp <$> unsigned r
  | _ => unsigned s
  end.

Definition toNumber (s : string) : num := parse (trim s).

Definition isNaN (x : num) : bool := bool_decide (x = None).

Definition lt (x y : num) : bool :=
  match x, y with
  | Some a, Some b => bool_decide (a < b)%Z
  | _, _ => false
  end.

Definition toString (x : num) : string :=
  match x with
  | Some a => pretty a
  | None => "NaN"
  end.

Fixpoint all_alnum (s : string) : bool :=
  match s with
  | String c r => is_alnum c && all_alnum r
  | EmptyString => true
  end.

Definition compile (p : string) : option string :=
  if all_alnum p then Some p else None.

Fixpoint occurs (p s : string) : bool :=
  String.prefix p s
  || match s with
     | String _ r => occurs p r
     | EmptyString => false
     end.

#[global] Instance runtime : JSRuntime := {|
  JSnum := num;
  Number := toNumber;
  Number_isNaN := isNaN;
  num_lt := lt;
  num_toString := toString;
  String_trim := trim;
  RegExpObj := string;
  RegExp := compile;
  RegExp_test := occurs
|}.

End RefRuntime.

(** ** The specification's wording of the per-field results *)

Section Spec.
Context `{RT : JSRuntime}.


(** The parsed value is below a set [min]; above a set [max]. *)
Definition belowMin (field : FieldSchema.t) (num : JSnum) : Prop :=
  ∃ lo, FieldSchema.min field = Some lo ∧ num_lt num lo = true.

Definition aboveMax (field : FieldSchema.t) (num : JSnum) : Prop :=
  ∃ hi, FieldSchema.max field = Some hi ∧ num_lt hi num = true.

(** The field identifiers of a schema are pairwise distinct (the data
    model's invariant on [id]). *)
Definition uniqueIds (schema : FormSchema.t) : Prop :=
  NoDup (FieldSchema.id <$> FormSchema.fields schema).

(** No field identifier is the name of a property that every object
    inherits: the identifiers are those an identifier generator makes, and
    the raw inputs and the errors can be kept under them in plain objects. *)
Definition ordinaryIds (schema : FormSchema.t) : Prop :=
  Forall (λ f, FieldSchema.id f ∉ inheritedKeys) (FormSchema.fields schema).

(** [field] is the last field of the schema that carries its name. *)
Definition lastWithName (schema : FormSchema.t) (field : FieldSchema.t)
  : Prop :=
  ∃ before after,
    FormSchema.fields schema = (before ++ field :: after)%list
    ∧ ∀ g, g ∈ after → FieldSchema.name g ≠ FieldSchema.name field.

End Spec.

(** ** Example schemas, on the reference runtime *)

Module Examples.
Import RefRuntime.

Definition field (id name : string) (type : FieldType)
    (required : option bool) (min max : option num)
    (pattern : option string) (options : option (list string))
  : FieldSchema.t :=
  FieldSchema.mk runtime id name name type required None min max pattern
    options.

Definition schemaOf (fields : list FieldSchema.t) : FormSchema.t :=
  FormSchema.mk runtime "schema1" "Example form" None single_column fields
    "2024-01-01T00:00:00.000Z" "2024-01-01T00:00:00.000Z".

(** A required number field [age] with [min = 0] and [max = 120]. *)
Definition age : FieldSchema.t :=
  field "f_age" "age" number (Some true) (Some (Some 0%Z))
    (Some (Some 120%Z)) None None.

(** An optional text field whose pattern is the text [abc]. *)
Definition code : FieldSchema.t :=
  field "f_code" "code" text None None None (Some "abc") None.

(** A select field with the options [A] and [B]. *)
Definition choice : FieldSchema.t :=
  field "f_choice" "choice" select None None None None (Some ["A"; "B"]).

(** Two optional text fields that share the name [x]. *)
Definition first_x : FieldSchema.t :=
  field "f_1" "x" text None None None None None.

Definition second_x : FieldSchema.t :=
  field "f_2" "x" text None None None None None.

Definition personSchema : FormSchema.t := schemaOf [age; code; choice].

Definition duplicateSchema : FormSchema.t := schemaOf [first_x; second_x].

(** Raw inputs: a full and valid set, and some partial ones. *)
Definition goodInput : gmap string string :=
  <["f_age" := " 45 "]> (<["f_code" := "xabcx"]> {["f_choice" := "C"]}).

Definition overAge : gmap string string := {["f_age" := " 130 "]}.

Definition badCode : gmap string string :=
  <["f_age" := "45"]> {["f_code" := "zzz"]}.

Definition choiceOnly : gmap string string := {["f_choice" := "C"]}.


Definition secondOnly : gmap string string := {["f_2" := "hello"]}.

(** The patch [{ type }], without an [options] key. *)
Definition typeOnlyPatch (type : FieldType) : FieldPatch.t :=
  FieldPatch.mk runtime None None None (Some type) None None None None None
    None.

End Examples.

(** ** The form's state (components/DynamicForm.tsx) *)

Section FormState.
Context `{RT : JSRuntime}.

(** The state of the component: [values] and [errors]. *)
Record FormState := mkFormState {
  st_values : gmap string string;
  st_errors : gmap string string
}.

(** The map built by the [useEffect] on [schema] and again after a
    submission: [initial[f.id] = ''] for every field. *)
Definition resetValues (schema : FormSchema.t) : gmap string string :=
  foldl (λ initial f, objAssign (FieldSchema.id f) "" initial) ∅
        (FormSchema.fields schema).

(** [updateValue]: [{ ...prev, [fieldId]: value }]; a computed key of an
    object literal defines an own property under every key. *)
Definition updateValue (prev : gmap string string) (fieldId value : string)
  : gmap string string :=
  <[fieldId := value]> prev.

(** [handleSubmit] with the state it leaves: on failure the errors are
    stored and the values kept; on success the record is passed to
    [onSubmit], the values are reset and the errors cleared. *)
Definition submit (schema : FormSchema.t) (st : FormState)
  : FormState * option (gmap string JSValue) :=
  let result := validate schema (st_values st) in
  if result.2
  then (mkFormState (resetValues schema) ∅,
        Some (coerce schema (st_values st)))
  else (mkFormState (st_values st) result.1, None).

End FormState.

(** ** The field rows of the editor (components/SchemaEditor.tsx) *)

Section FieldEditorRow.
Context `{RT : JSRuntime}.

(** [s.split(',')] *)
Fixpoint split_comma (s : string) : list string :=
  match s with
  | EmptyString => [EmptyString]
  | String c r =>
      if bool_decide (c = ","%char) then EmptyString :: split_comma r
      else
        match split_comma r with
        | h :: t => String c h :: t
        | [] => [String c EmptyString]
        end
  end.

(** [l.join(sep)] *)
Fixpoint join (sep : string) (l : list string) : string :=
  match l with
  | [] => ""
  | [x] => x
  | x :: r => x +:+ sep +:+ join sep r
  end.

(** [optionsText]: [(field.options ?? []).join(', ')]. *)
Definition optionsText (field : FieldSchema.t) : string :=
  join ", " (default [] (FieldSchema.options field)).

(** [value.split(',').map((o) => o.trim()).filter(Boolean)] *)
Definition parseOptions (value : string) : list string :=
  filter (λ o, o ≠ "") (String_trim <$> split_comma value).

(** The [onChange] handler of the options input: the patch
    [{ options: ... }]. *)
Definition handleOptionsChange (value : string) : FieldPatch.t :=
  FieldPatch.mk RT None None None None None None None None None
    (Some (Some (parseOptions value))).

(** The [onChange] handler of the pattern input:
    [{ pattern: value || undefined }]. *)
Definition handlePatternChange (value : string) : FieldPatch.t :=
  FieldPatch.mk RT None None None None None None None None
    (Some (if bool_decide (value = "") then None else Some value)) None.

(** The [onChange] handlers of the min and max inputs:
    [{ min: value === '' ? undefined : Number(value) }]. *)
Definition handleMinChange (value : string) : FieldPatch.t :=
  FieldPatch.mk RT None None None None None None
    (Some (if bool_decide (value = "") then None else Some (Number value)))
    None None None.

Definition handleMaxChange (value : string) : FieldPatch.t :=
  FieldPatch.mk RT None None None None None None None
    (Some (if bool_decide (value = "") then None else Some (Number value)))
    None None.

(** Two patches applied one after the other, as one patch: the keys of
    [later] win. *)
Definition thenPatch (earlier later : FieldPatch.t) : FieldPatch.t :=
  FieldPatch.mk RT
    (match FieldPatch.id later with Some v => Some v
     | None => FieldPatch.id earlier end)
    (match FieldPatch.name later with Some v => Some v
     | None => FieldPatch.name earlier end)
    (match FieldPatch.label later with Some v => Some v
     | None => FieldPatch.label earlier end)
    (match FieldPatch.type later with Some v => Some v
     | None => FieldPatch.type earlier end)
    (match FieldPatch.required later with Some v => Some v
     | None => FieldPatch.required earlier end)
    (match FieldPatch.placeholder later with Some v => Some v
     | None => FieldPatch.placeholder earlier end)
    (match FieldPatch.min later with Some v => Some v
     | None => FieldPatch.min earlier end)
    (match FieldPatch.max later with Some v => Some v
     | None => FieldPatch.max earlier end)
    (match FieldPatch.pattern later with Some v => Some v
     | None => FieldPatch.pattern earlier end)
    (match FieldPatch.options later with Some v => Some v
     | None => FieldPatch.options earlier end).

(** [trim] removes a leading space. *)
Definition trim_leading_space : Prop :=
  ∀ s, String_trim (" " +:+ s) = String_trim s.

(** An option text that the options input gives back as it is: not empty,
    without a comma, and unchanged by [trim]. *)
Fixpoint no_comma (s : string) : bool :=
  match s with
  | EmptyString => true
  | String c r => negb (bool_decide (c = ","%char)) && no_comma r
  end.

Definition cleanOption (o : string) : Prop :=
  o ≠ "" ∧ no_comma o = true ∧ String_trim o = o.

End FieldEditorRow.

(** ** The application shell (App.tsx) *)

Inductive ActiveTab := tab_form | tab_entries | tab_schema.

Module FormEntry.
Record t {RT : JSRuntime} := mk {
  id : string;
  schemaId : string;
  createdAt : string;
  data : gmap string JSValue
}.
End FormEntry.

Section App.
Context `{RT : JSRuntime}.

(** The state of [App]; [schemas] and [entries] are the two collections kept
    in local storage. *)
Record AppState := mkAppState {
  app_schemas : list FormSchema.t;
  app_entries : list FormEntry.t;
  app_selectedSchemaId : option string;
  app_activeTab : ActiveTab
}.

(** [schemas.find((s) => s.id === selectedSchemaId) ?? null] *)
Definition selectedSchema (st : AppState) : option FormSchema.t :=
  List.find (λ s, bool_decide (Some (FormSchema.id s) = app_selectedSchemaId st))
            (app_schemas st).

(** The entries shown for the selected schema. *)
Definition schemaEntries (st : AppState) : list FormEntry.t :=
  match selectedSchema st with
  | Some s =>
      filter (λ e, FormEntry.schemaId e = FormSchema.id s) (app_entries st)
  | None => []
  end.

(** The [useEffect] that selects the first schema when none is selected;
    [!selectedSchemaId] holds for [null] and for the empty string. *)
Definition autoSelect (st : AppState) : AppState :=
  let unset :=
    match app_selectedSchemaId st with
    | None => true
    | Some i => bool_decide (i = "")
    end in
  match app_schemas st with
  | first :: _ =>
      if unset
      then mkAppState (app_schemas st) (app_entries st)
             (Some (FormSchema.id first)) (app_activeTab st)
      else st
  | [] => st
  end.

(** [id] is the identifier returned by [generateId()], [now] the clock's
    reading. *)
Definition handleCreateSchema (st : AppState) (id now : string) : AppState :=
  let newSchema :=
    FormSchema.mk RT id "Untitled Form" (Some "") single_column [] now now in
  mkAppState (app_schemas st ++ [newSchema])%list (app_entries st) (Some id)
    tab_schema.

Definition handleUpdateSchema (st : AppState) (updated : FormSchema.t)
  : AppState :=
  mkAppState
    (map (λ s, if bool_decide (FormSchema.id s = FormSchema.id updated)
               then updated else s)
         (app_schemas st))
    (app_entries st) (app_selectedSchemaId st) (app_activeTab st).

(** [confirmed] is the answer to [confirm(...)]. *)
Definition handleDeleteSchema (st : AppState) (id : string)
    (confirmed : bool) : AppState :=
  if negb confirmed then st
  else
    mkAppState
      (filter (λ s, FormSchema.id s ≠ id) (app_schemas st))
      (filter (λ e, FormEntry.schemaId e ≠ id) (app_entries st))
      (if bool_decide (app_selectedSchemaId st = Some id)
       then FormSchema.id <$> head (app_schemas st)
       else app_selectedSchemaId st)
      (app_activeTab st).

Definition handleFormSubmit (st : AppState) (data : gmap string JSValue)
    (entryId now : string) : AppState :=
  match selectedSchema st with
  | None => st
  | Some s =>
      let entry := FormEntry.mk RT entryId (FormSchema.id s) now data in
      mkAppState (app_schemas st) (entry :: app_entries st)
        (app_selectedSchemaId st) (app_activeTab st)
  end.

Definition handleDeleteEntry (st : AppState) (entryId : string) : AppState :=
  mkAppState (app_schemas st)
    (filter (λ e, FormEntry.id e ≠ entryId) (app_entries st))
    (app_selectedSchemaId st) (app_activeTab st).

Definition handleClearEntries (st : AppState) (confirmed : bool)
  : AppState :=
  if negb confirmed then st
  else
    match selectedSchema st with
    | None => st
    | Some s =>
        mkAppState (app_schemas st)
          (filter (λ e, FormEntry.schemaId e ≠ FormSchema.id s)
                  (app_entries st))
          (app_selectedSchemaId st) (app_activeTab st)
    end.

(** An edit made in the schema designer: the editor works on the selected
    schema and hands its result to [handleUpdateSchema]. *)
Definition editSelected (st : AppState) (ev : EditorEvent) (now : string)
  : AppState :=
  match selectedSchema st with
  | Some s => handleUpdateSchema st (dispatch s ev now)
  | None => st
  end.

End App.

(** ** The data viewer (components/EntriesTable.tsx) *)

Section EntriesTable.
Context {A : Type}.

(** [Math.ceil(a / b)] for natural numbers, [b] positive. *)
Definition ceilDiv (a b : nat) : nat :=
  a / b + (if bool_decide (a `mod` b = 0) then 0 else 1).

(** [Math.max(1, Math.ceil(filteredAndSorted.length / pageSize))] *)
Definition pageCount (rows : list A) (pageSize : nat) : nat :=
  1 `max` ceilDiv (length rows) pageSize.

(** [Math.min(page, pageCount - 1)] *)
Definition currentPage (rows : list A) (page pageSize : nat) : nat :=
  page `min` (pageCount rows pageSize - 1).

(** [l.slice(start, stop)] for [start ≤ stop]. *)
Definition slice (l : list A) (start stop : nat) : list A :=
  take (stop - start) (drop start l).

Definition pageItems (rows : list A) (page pageSize : nat) : list A :=
  let cur := currentPage rows page pageSize in
  slice rows (cur * pageSize) (cur * pageSize + pageSize).

(** The handlers of the Previous and Next buttons. *)
Definition previousPage (p : nat) : nat := 0 `max` (p - 1).

Definition nextPage (rows : list A) (pageSize p : nat) : nat :=
  (pageCount rows pageSize - 1) `min` (p + 1).

End EntriesTable.

Inductive SortDirection := asc | desc.

(** [handleSort], on the pair of states [sortBy] and [sortDirection]. *)
Definition handleSort (st : string * SortDirection) (col : string)
  : string * SortDirection :=
  if bool_decide (st.1 = col)
  then (st.1, match st.2 with asc => desc | desc => asc end)
  else (col, asc).

(** The double quote character. *)
Definition dquote : ascii := ascii_of_nat 34.

(** The [replace] of [escape]: every double quote of the value is doubled. *)
Fixpoint doubleQuotes (val : string) : string :=
  match val with
  | EmptyString => EmptyString
  | String c r =>
      if bool_decide (c = dquote)
      then String dquote (String dquote (doubleQuotes r))
      else String c (doubleQuotes r)
  end.

(** [escape] of [handleExportCsv]: the value with its quotes doubled, between
    two quotes. *)
Definition escape (val : string) : string :=
  String dquote (doubleQuotes val +:+ String dquote EmptyString).

(** ** More examples, on the reference runtime *)

Module MoreExamples.
Import RefRuntime Examples.




(** A second schema, with its own identifier. *)
Definition otherSchema : FormSchema.t :=
  FormSchema.mk runtime "schema2" "Other form" None two_column
    [first_x] "2024-02-02T00:00:00.000Z" "2024-02-02T00:00:00.000Z".

Definition entryOf (id schemaId : string) : FormEntry.t :=
  FormEntry.mk runtime id schemaId "2024-03-03T00:00:00.000Z" ∅.

(** Fields whose name is [__proto__]. *)
Definition proto_field : FieldSchema.t :=
  field "f_p" "__proto__" text None None None None None.



Definition protoSchema : FormSchema.t := schemaOf [proto_field].


Definition protoInput : gmap string string := {["f_p" := "hello"]}.


(** Two schemas, the first one selected, and three entries. *)
Definition appState : AppState :=
  mkAppState [personSchema; otherSchema]
    [entryOf "e3" "schema1"; entryOf "e2" "schema2"; entryOf "e1" "schema1"]
    (Some "schema1") tab_form.

End MoreExamples.

(** * Properties *)

(** ** Assignments to plain objects *)

Section ObjAssign.
Context {V : Type}.
Implicit Types (m : gmap string V) (k j : string) (v : V).

Lemma objAssign_lookup_ne k j v m :
  k ≠ j → objAssign k v m !! j = m !! j.
Proof.
  intros Hne. unfold objAssign. case_bool_decide; [done|].
  by rewrite lookup_insert_ne.
Qed.

Lemma objAssign_lookup_eq k v m :
  objAssign k v m !! k
  = if bool_decide (k = "__proto__") then m !! k else Some v.
Proof.
  unfold objAssign. case_bool_decide; [done|]. by rewrite lookup_insert_eq.
Qed.

Lemma objAssign_dom k v m :
  dom (objAssign k v m)
  = dom m ∪ list_to_set (filter (λ n, n ≠ "__proto__") [k]).
Proof.
  unfold objAssign. case_bool_decide as Hk.
  - rewrite filter_cons_False by (intros Hne; by apply Hne).
    rewrite filter_nil. simpl. by rewrite (right_id_L ∅ (∪)).
  - rewrite filter_cons_True by done. rewrite filter_nil, dom_insert_L. simpl.
    by rewrite (right_id_L ∅ (∪)), (comm_L (∪)).
Qed.

End ObjAssign.

(** ** The validation loop *)

Section ValidateLemmas.
Context `{RT : JSRuntime}.
Implicit Types (values errs : gmap string string) (f : FieldSchema.t).

Lemma ordinaryIds_not_proto (schema : FormSchema.t) f :
  ordinaryIds schema → f ∈ FormSchema.fields schema →
  FieldSchema.id f ≠ "__proto__".
Proof.
  intros Hord Hin Heq. unfold ordinaryIds in Hord.
  rewrite Forall_forall in Hord. apply (Hord f Hin).
  rewrite Heq. by left.
Qed.

Lemma validateStep_other values errs f i :
  FieldSchema.id f ≠ i → validateStep values errs f !! i = errs !! i.
Proof.
  intros Hne. unfold validateStep.
  destruct (fieldError values f); [by rewrite objAssign_lookup_ne|done].
Qed.

Lemma validateStep_same values errs f :
  validateStep values errs f !! FieldSchema.id f =
    match fieldError values f with
    | Some e =>
        if bool_decide (FieldSchema.id f = "__proto__")
        then errs !! FieldSchema.id f else Some e
    | None => errs !! FieldSchema.id f
    end.
Proof.
  unfold validateStep.
  destruct (fieldError values f); [by rewrite objAssign_lookup_eq|done].
Qed.

Lemma foldl_validateStep_other values fs : ∀ errs i,
  i ∉ (FieldSchema.id <$> fs) →
  foldl (validateStep values) errs fs !! i = errs !! i.
Proof.
  induction fs as [|g fs IH]; intros errs i Hi; [done|].
  rewrite fmap_cons, not_elem_of_cons in Hi. destruct Hi as [Hg Hfs].
  simpl. rewrite IH by done. by apply validateStep_other.
Qed.

Lemma foldl_validateStep_lookup values fs : ∀ errs f,
  NoDup (FieldSchema.id <$> fs) → f ∈ fs →
  foldl (validateStep values) errs fs !! FieldSchema.id f =
    match fieldError values f with
    | Some e =>
        if bool_decide (FieldSchema.id f = "__proto__")
        then errs !! FieldSchema.id f else Some e
    | None => errs !! FieldSchema.id f
    end.
Proof.
  induction fs as [|g fs IH]; intros errs f Hnd Hin.
  - by apply elem_of_nil in Hin.
  - rewrite fmap_cons in Hnd. apply NoDup_cons in Hnd as [Hg Hnd].
    apply elem_of_cons in Hin as [->|Hin]; simpl.
    + rewrite foldl_validateStep_other by done. apply validateStep_same.
    + rewrite IH by done.
      assert (FieldSchema.id g ≠ FieldSchema.id f) as Hne.
      { intros Heq. apply Hg. rewrite Heq. by apply list_elem_of_fmap_2. }
      by rewrite validateStep_other.
Qed.

(** With pairwise distinct identifiers, the error map holds for each field
    the error of that field's iteration, unless the identifier is
    [__proto__], under which nothing is stored. *)
Lemma validate_lookup_any (schema : FormSchema.t) values f :
  uniqueIds schema → f ∈ FormSchema.fields schema →
  (validate schema values).1 !! FieldSchema.id f
  = if bool_decide (FieldSchema.id f = "__proto__")
    then None else fieldError values f.
Proof.
  intros Hnd Hin. simpl. unfold newErrorsOf.
  rewrite foldl_validateStep_lookup by done.
  rewrite lookup_empty.
  destruct (fieldError values f); by case_bool_decide.
Qed.

Lemma validate_lookup (schema : FormSchema.t) values f :
  uniqueIds schema → ordinaryIds schema → f ∈ FormSchema.fields schema →
  (validate schema values).1 !! FieldSchema.id f = fieldError values f.
Proof.
  intros Hnd Hord Hin. rewrite validate_lookup_any by done.
  by rewrite bool_decide_eq_false_2 by by eapply ordinaryIds_not_proto.
Qed.

End ValidateLemmas.

(** ** Validation: the per-field rules *)

Section ValidateClaims.
Context `{RT : JSRuntime}.
Implicit Types (schema : FormSchema.t) (values : gmap string string).
Implicit Types (f : FieldSchema.t).

(** C1. For a number field whose trimmed raw input is not empty, [validate]
    reports "Must be a valid number" when the trimmed value does not parse;
    otherwise "Must be ≥ min" when [min] is set and the parsed value is less
    than it; otherwise "Must be ≤ max" when [max] is set and the parsed value
    is greater than it; otherwise no error.  The checks are made in that
    order and the first failure is the only error reported for the field.
    The field identifiers of the schema are pairwise distinct and
    ordinary. *)
Theorem validate_number_rules schema values f :
  uniqueIds schema →
  ordinaryIds schema →
  f ∈ FormSchema.fields schema →
  FieldSchema.type f = number →
  String_trim (default "" (values !! FieldSchema.id f)) ≠ "" →
  let num := Number (String_trim (default "" (values !! FieldSchema.id f))) in
  let reported := (validate schema values).1 !! FieldSchema.id f in
  (Number_isNaN num = true → reported = Some "Must be a valid number")
  ∧ (Number_isNaN num = false →
     ∀ lo, FieldSchema.min f = Some lo → num_lt num lo = true →
     reported = Some ("Must be ≥ " +:+ num_toString lo))
  ∧ (Number_isNaN num = false → ¬ belowMin f num →
     ∀ hi, FieldSchema.max f = Some hi → num_lt hi num = true →
     reported = Some ("Must be ≤ " +:+ num_toString hi))
  ∧ (Number_isNaN num = false → ¬ belowMin f num → ¬ aboveMax f num →
     reported = None).
Proof.
  intros Hnd Hord Hin Hty Hne num reported.
  assert (reported = numberError f (String_trim (rawOf values f))) as ->.
  { unfold reported. rewrite validate_lookup by done.
    unfold fieldError. fold (rawOf values f) in Hne.
    rewrite (bool_decide_eq_false_2 _ Hne), andb_false_r.
    rewrite Hty, bool_decide_eq_true_2 by done.
    by destruct (numberError _ _). }
  unfold numberError, rawOf. fold num.
  repeat split.
  - by intros ->.
  - intros -> lo Hlo Hlt. by rewrite Hlo; simpl; rewrite Hlt.
  - intros -> Hmin hi Hhi Hgt.
    assert (violatedBound (FieldSchema.min f) (λ lo, num_lt num lo) = None)
      as ->.
    { destruct (FieldSchema.min f) as [lo|] eqn:Hlo; [|done]. simpl.
      destruct (num_lt num lo) eqn:Hlt; [|done].
      destruct Hmin. by exists lo. }
    by rewrite Hhi; simpl; rewrite Hgt.
  - intros -> Hmin Hmax.
    assert (violatedBound (FieldSchema.min f) (λ lo, num_lt num lo) = None)
      as ->.
    { destruct (FieldSchema.min f) as [lo|] eqn:Hlo; [|done]. simpl.
      destruct (num_lt num lo) eqn:Hlt; [|done].
      destruct Hmin. by exists lo. }
    assert (violatedBound (FieldSchema.max f) (λ hi, num_lt hi num) = None)
      as ->; [|done].
    destruct (FieldSchema.max f) as [hi|] eqn:Hhi; [|done]. simpl.
    destruct (num_lt hi num) eqn:Hgt; [|done].
    destruct Hmax. by exists hi.
Qed.

(** C2. When the trimmed raw input of a field (the empty string when the
    input is absent) is empty: a required field gets exactly "This field is
    required", a field that is not required gets no error; in both cases
    whatever the field's type, bounds and pattern are, as no other check is
    made.  The field identifiers of the schema are pairwise distinct and
    ordinary. *)
Theorem validate_empty_input schema values f :
  uniqueIds schema →
  ordinaryIds schema →
  f ∈ FormSchema.fields schema →
  String_trim (default "" (values !! FieldSchema.id f)) = "" →
  (FieldSchema.required f = Some true →
   (validate schema values).1 !! FieldSchema.id f
   = Some "This field is required")
  ∧ (FieldSchema.required f ≠ Some true →
     (validate schema values).1 !! FieldSchema.id f = None).
Proof.
  intros Hnd Hord Hin Hempty.
  rewrite validate_lookup by done.
  unfold fieldError. fold (rawOf values f) in Hempty.
  rewrite (bool_decide_eq_true_2 _ Hempty), andb_true_r.
  split.
  - by intros ->.
  - intros Hreq. by destruct (FieldSchema.required f) as [[]|].
Qed.

(** C3. For a text field with a pattern and a non-empty trimmed raw input:
    no error when the pattern does not compile; "Value does not match
    required format" when it compiles and the trimmed value does not match;
    no error when it compiles and the trimmed value matches.  The field
    identifiers of the schema are pairwise distinct and ordinary. *)
Theorem validate_text_pattern schema values f p :
  empty_pattern_matches →
  uniqueIds schema →
  ordinaryIds schema →
  f ∈ FormSchema.fields schema →
  FieldSchema.type f = text →
  FieldSchema.pattern f = Some p →
  String_trim (default "" (values !! FieldSchema.id f)) ≠ "" →
  let trimmed := String_trim (default "" (values !! FieldSchema.id f)) in
  let reported := (validate schema values).1 !! FieldSchema.id f in
  (RegExp p = None → reported = None)
  ∧ (∀ regex, RegExp p = Some regex → RegExp_test regex trimmed = false →
     reported = Some "Value does not match required format")
  ∧ (∀ regex, RegExp p = Some regex → RegExp_test regex trimmed = true →
     reported = None).
Proof.
  intros Hlaw Hnd Hord Hin Hty Hpat Hne trimmed reported.
  assert (reported =
          if bool_decide (p = "") then None else patternError p trimmed) as ->.
  { unfold reported. rewrite validate_lookup by done.
    unfold fieldError. fold (rawOf values f) in Hne.
    rewrite (bool_decide_eq_false_2 _ Hne), andb_false_r.
    rewrite Hty, Hpat. simpl. by destruct (bool_decide (p = "")). }
  unfold patternError.
  case_bool_decide as Hp.
  - subst p. split; [done|]. split; [|done].
    intros regex Hre Htest. by rewrite (Hlaw _ _ Hre) in Htest.
  - split; [by intros ->|].
    split; by intros regex -> ->.
Qed.

(** C6. For a select field or a date field with a non-empty trimmed raw
    input, [validate] reports no error, whatever the field's options are and
    whether or not the input is one of them. *)
Theorem validate_select_date_unchecked schema values f :
  uniqueIds schema →
  f ∈ FormSchema.fields schema →
  FieldSchema.type f = select ∨ FieldSchema.type f = date →
  String_trim (default "" (values !! FieldSchema.id f)) ≠ "" →
  (validate schema values).1 !! FieldSchema.id f = None.
Proof.
  intros Hnd Hin Hty Hne.
  rewrite validate_lookup_any by done.
  case_bool_decide; [done|].
  unfold fieldError. fold (rawOf values f) in Hne.
  rewrite (bool_decide_eq_false_2 _ Hne), andb_false_r.
  by destruct Hty as [-> | ->].
Qed.

End ValidateClaims.

(** ** Coercion on submit *)

Section CoerceLemmas.
Context `{RT : JSRuntime}.
Implicit Types (values : gmap string string) (data : gmap string JSValue).
Implicit Types (f : FieldSchema.t).

Lemma foldl_write_other values fs : ∀ data n,
  (∀ g, g ∈ fs → FieldSchema.name g ≠ n) →
  foldl (writeField values) data fs !! n = data !! n.
Proof.
  induction fs as [|g fs IH]; intros data n Hn; [done|].
  simpl. rewrite IH by (intros h Hh; apply Hn; by right).
  unfold writeField. apply objAssign_lookup_ne, Hn. by left.
Qed.

Lemma foldl_write_is_Some values fs : ∀ data n,
  n ≠ "__proto__" →
  is_Some (data !! n) ∨ n ∈ (FieldSchema.name <$> fs) →
  is_Some (foldl (writeField values) data fs !! n).
Proof.
  induction fs as [|g fs IH]; intros data n Hproto Hn.
  - destruct Hn as [Hn|Hn]; [done|]. by apply elem_of_nil in Hn.
  - simpl. apply IH; [done|]. unfold writeField.
    destruct (decide (FieldSchema.name g = n)) as [<-|Hne].
    + left. rewrite objAssign_lookup_eq.
      by rewrite bool_decide_eq_false_2.
    + rewrite objAssign_lookup_ne by done.
      destruct Hn as [Hn|Hn]; [by left|right].
      rewrite fmap_cons in Hn. by apply elem_of_cons in Hn as [?|?].
Qed.

Lemma coerce_lookup_last (schema : FormSchema.t) values f :
  lastWithName schema f →
  FieldSchema.name f ≠ "__proto__" →
  coerce schema values !! FieldSchema.name f = Some (parsedOf values f).
Proof.
  intros (before & after & Hfs & Hafter) Hproto.
  unfold coerce. rewrite Hfs, foldl_app. simpl.
  rewrite foldl_write_other by done. unfold writeField.
  rewrite objAssign_lookup_eq. by rewrite bool_decide_eq_false_2.
Qed.


End CoerceLemmas.

Section CoerceClaims.
Context `{RT : JSRuntime}.
Implicit Types (schema : FormSchema.t) (values : gmap string string).
Implicit Types (f : FieldSchema.t).



(** C10 (amended). The record built by coercion has an entry for the name
    of every field of the schema, the name [__proto__] excepted; and a field
    that is the last one with its name, a name other than [__proto__], and
    whose raw input is absent or the empty string appears with the empty
    string as its value, whether it is a number field or not.  The field
    identifiers are ordinary. *)
Theorem coerce_covers_every_name schema values :
  trim_empty →
  ordinaryIds schema →
  (∀ f, f ∈ FormSchema.fields schema →
        FieldSchema.name f ≠ "__proto__" →
        is_Some (coerce schema values !! FieldSchema.name f))
  ∧ (∀ f, lastWithName schema f →
          FieldSchema.name f ≠ "__proto__" →
          default "" (values !! FieldSchema.id f) = "" →
          coerce schema values !! FieldSchema.name f = Some (VString "")).
Proof.
  intros Hlaw _. split.
  - intros f Hin Hproto. apply foldl_write_is_Some; [done|]. right.
    by apply list_elem_of_fmap_2.
  - intros f Hlast Hproto Hraw. rewrite coerce_lookup_last by done.
    unfold parsedOf, rawOf. rewrite Hraw.
    unfold trim_empty in Hlaw. rewrite Hlaw.
    by destruct (bool_decide (FieldSchema.type f = number)).
Qed.

End CoerceClaims.

(** ** The schema editor *)

Section EditorClaims.
Context `{RT : JSRuntime}.
Implicit Types (schema : FormSchema.t) (f field : FieldSchema.t).

(** C8. Every mutating operation of the editor (adding, updating or removing
    a field, changing the layout, the name or the description) yields a
    schema whose [updatedAt] is the clock's reading and whose [id] and
    [createdAt] are those of the schema it was applied to. *)
Theorem dispatch_refreshes_updatedAt schema (ev : EditorEvent) now :
  FormSchema.updatedAt (dispatch schema ev now) = now
  ∧ FormSchema.id (dispatch schema ev now) = FormSchema.id schema
  ∧ FormSchema.createdAt (dispatch schema ev now)
    = FormSchema.createdAt schema.
Proof. by destruct ev. Qed.

(** C9. [updateField] with an identifier that no field of the schema carries
    returns a schema with the same list of fields and a refreshed
    [updatedAt]; the function is total, so nothing is raised. *)
Theorem updateField_unknown_id schema fieldId (patch : FieldPatch.t) now :
  fieldId ∉ (FieldSchema.id <$> FormSchema.fields schema) →
  FormSchema.fields (updateField schema fieldId patch now)
  = FormSchema.fields schema
  ∧ FormSchema.updatedAt (updateField schema fieldId patch now) = now.
Proof.
  intros Hid. split; [|done]. simpl.
  induction (FormSchema.fields schema) as [|g fs IH]; [done|].
  rewrite fmap_cons, not_elem_of_cons in Hid. destruct Hid as [Hg Hfs].
  simpl. rewrite IH by done.
  by rewrite bool_decide_eq_false_2 by done.
Qed.

(** The fields of a schema after [updateField]. *)
Lemma updateField_fields schema fieldId (patch : FieldPatch.t) now f' :
  f' ∈ FormSchema.fields (updateField schema fieldId patch now) →
  FieldSchema.id f' = fieldId →
  ∃ f, f ∈ FormSchema.fields schema ∧ FieldSchema.id f = fieldId
       ∧ f' = spreadField f patch.
Proof.
  simpl. intros Hin Hid.
  apply list_elem_of_fmap in Hin as (f & -> & Hin).
  exists f. case_bool_decide as Hf; [done|].
  by destruct Hf.
Qed.

(** C4 (amended). A type change made through [handleTypeChange] to a type
    other than select yields a schema in which the options of the field are
    undefined; and changing the type back to select through
    [handleTypeChange] afterwards leaves them undefined: the options the
    field had before are not restored. *)
Theorem typeChange_clears_options schema field newType now :
  newType ≠ select →
  (∀ f', f' ∈ FormSchema.fields (rowTypeChange schema field newType now) →
         FieldSchema.id f' = FieldSchema.id field →
         FieldSchema.type f' = newType ∧ FieldSchema.options f' = None)
  ∧ (∀ field' now' f'',
       FieldSchema.id field' = FieldSchema.id field →
       f'' ∈ FormSchema.fields
               (rowTypeChange (rowTypeChange schema field newType now)
                              field' select now') →
       FieldSchema.id f'' = FieldSchema.id field →
       FieldSchema.type f'' = select ∧ FieldSchema.options f'' = None).
Proof.
  intros Hty.
  assert (∀ f', f' ∈ FormSchema.fields (rowTypeChange schema field newType now) →
         FieldSchema.id f' = FieldSchema.id field →
         FieldSchema.type f' = newType ∧ FieldSchema.options f' = None)
    as Hfirst.
  { intros f' Hin Hid. unfold rowTypeChange in Hin.
    apply updateField_fields in Hin as (f & _ & _ & ->); [|done].
    unfold handleTypeChange. by rewrite bool_decide_eq_true_2 by done. }
  split; [done|].
  intros field' now' f'' Hfield' Hin Hid. unfold rowTypeChange at 1 in Hin.
  apply updateField_fields in Hin as (f' & Hin' & Hid' & ->);
    [|by rewrite Hfield'].
  rewrite Hfield' in Hid'. destruct (Hfirst f' Hin' Hid') as [_ Hopt].
  by split.
Qed.

End EditorClaims.

(** ** The reference runtime satisfies the assumed facts *)

Section RefRuntimeLaws.
Import RefRuntime.

Lemma ltrim_idem s : ltrim (ltrim s) = ltrim s.
Proof.
  induction s as [|c r IH]; [done|]. simpl.
  destruct (is_space c) eqn:Hc; [done|]. simpl. by rewrite Hc.
Qed.

Lemma ltrim_length s : (String.length (ltrim s) ≤ String.length s)%nat.
Proof.
  induction s as [|c r IH]; [done|]. simpl.
  destruct (is_space c); simpl; lia.
Qed.

Lemma rtrim_idem s : rtrim (rtrim s) = rtrim s.
Proof.
  induction s as [|c r IH]; [done|]. simpl.
  destruct (rtrim r) as [|d r'] eqn:Hr.
  - destruct (is_space c) eqn:Hc; [done|]. simpl. by rewrite Hc.
  - simpl in *. by rewrite IH.
Qed.

(** Trimming on the right keeps a string free of leading white space. *)
Lemma ltrim_rtrim s : ltrim s = s → ltrim (rtrim s) = rtrim s.
Proof.
  destruct s as [|c r]; [done|]. simpl.
  destruct (is_space c) eqn:Hc.
  - intros Heq. pose proof (ltrim_length r) as Hlen.
    rewrite Heq in Hlen. simpl in Hlen. lia.
  - intros _. destruct (rtrim r); simpl; by rewrite Hc.
Qed.

Lemma trim_idem s : trim (trim s) = trim s.
Proof.
  unfold trim. rewrite ltrim_rtrim by apply ltrim_idem. apply rtrim_idem.
Qed.

Lemma ref_Number_ignores_trim : Number_ignores_trim.
Proof. intros s. simpl. unfold toNumber. by rewrite trim_idem. Qed.

Lemma ref_trim_empty : trim_empty.
Proof. reflexivity. Qed.

Lemma ref_empty_pattern_matches : empty_pattern_matches.
Proof. intros re s [= <-]. by destruct s. Qed.

End RefRuntimeLaws.

(** ** The properties at work on the example schemas *)

Section Instances.
Import RefRuntime Examples MoreExamples.

Lemma personSchema_uniqueIds : uniqueIds personSchema.
Proof. apply (bool_decide_unpack _). by vm_compute. Qed.

Lemma personSchema_ordinaryIds : ordinaryIds personSchema.
Proof. apply (bool_decide_unpack _). by vm_compute. Qed.

Lemma duplicateSchema_ordinaryIds : ordinaryIds duplicateSchema.
Proof. apply (bool_decide_unpack _). by vm_compute. Qed.

(** The end-to-end example of the specification: [" 45 "] for a required
    number field [age] with [min = 0] and [max = 120] validates and is
    submitted as the number 45. *)
Example submit_age :
  (validate (schemaOf [age]) {["f_age" := " 45 "]}).1 = ∅
  ∧ handleSubmit (schemaOf [age]) {["f_age" := " 45 "]}
    = Some {["age" := VNumber (Some 45%Z)]}.
Proof. split; reflexivity. Qed.

Lemma validate_number_rules_witness :
  uniqueIds personSchema
  ∧ ordinaryIds personSchema
  ∧ age ∈ FormSchema.fields personSchema
  ∧ FieldSchema.type age = number
  ∧ String_trim (default "" (overAge !! FieldSchema.id age)) ≠ ""
  ∧ (validate personSchema overAge).1 !! FieldSchema.id age
    = Some "Must be ≤ 120".
Proof.
  assert (age ∈ FormSchema.fields personSchema) as Hin by (simpl; left).
  assert (String_trim (default "" (overAge !! FieldSchema.id age)) ≠ "")
    as Hne by (by vm_compute).
  split; [exact personSchema_uniqueIds|].
  split; [exact personSchema_ordinaryIds|].
  split; [exact Hin|]. split; [reflexivity|]. split; [exact Hne|].
  destruct (validate_number_rules personSchema overAge age
              personSchema_uniqueIds personSchema_ordinaryIds Hin eq_refl
              Hne) as (_ & _ & Hmax & _).
  refine (Hmax eq_refl _ (Some 120%Z) eq_refl eq_refl).
  intros (lo & [= <-] & Hlt). by vm_compute in Hlt.
Defined.

Lemma validate_empty_input_witness :
  uniqueIds personSchema
  ∧ ordinaryIds personSchema
  ∧ age ∈ FormSchema.fields personSchema
  ∧ String_trim (default "" (choiceOnly !! FieldSchema.id age)) = ""
  ∧ (validate personSchema choiceOnly).1 !! FieldSchema.id age
    = Some "This field is required".
Proof.
  assert (age ∈ FormSchema.fields personSchema) as Hin by (simpl; left).
  split; [exact personSchema_uniqueIds|].
  split; [exact personSchema_ordinaryIds|].
  split; [exact Hin|]. split; [reflexivity|].
  apply (validate_empty_input personSchema choiceOnly age
           personSchema_uniqueIds personSchema_ordinaryIds Hin eq_refl).
  reflexivity.
Defined.

Lemma validate_text_pattern_witness :
  empty_pattern_matches
  ∧ uniqueIds personSchema
  ∧ ordinaryIds personSchema
  ∧ code ∈ FormSchema.fields personSchema
  ∧ FieldSchema.type code = text
  ∧ FieldSchema.pattern code = Some "abc"
  ∧ String_trim (default "" (badCode !! FieldSchema.id code)) ≠ ""
  ∧ (validate personSchema badCode).1 !! FieldSchema.id code
    = Some "Value does not match required format".
Proof.
  assert (code ∈ FormSchema.fields personSchema) as Hin
    by (simpl; right; left).
  assert (String_trim (default "" (badCode !! FieldSchema.id code)) ≠ "")
    as Hne by (by vm_compute).
  split; [exact ref_empty_pattern_matches|].
  split; [exact personSchema_uniqueIds|].
  split; [exact personSchema_ordinaryIds|].
  split; [exact Hin|]. split; [reflexivity|]. split; [reflexivity|].
  split; [exact Hne|].
  destruct (validate_text_pattern personSchema badCode code "abc"
              ref_empty_pattern_matches personSchema_uniqueIds
              personSchema_ordinaryIds Hin eq_refl eq_refl Hne)
    as (_ & Hmiss & _).
  apply (Hmiss "abc"); reflexivity.
Defined.

Lemma validate_select_date_unchecked_witness :
  uniqueIds personSchema
  ∧ choice ∈ FormSchema.fields personSchema
  ∧ (FieldSchema.type choice = select ∨ FieldSchema.type choice = date)
  ∧ String_trim (default "" (choiceOnly !! FieldSchema.id choice)) ≠ ""
  ∧ FieldSchema.options choice = Some ["A"; "B"]
  ∧ choiceOnly !! FieldSchema.id choice = Some "C"
  ∧ (validate personSchema choiceOnly).1 !! FieldSchema.id choice = None.
Proof.
  assert (choice ∈ FormSchema.fields personSchema) as Hin
    by (simpl; right; right; left).
  assert (String_trim (default "" (choiceOnly !! FieldSchema.id choice)) ≠ "")
    as Hne by (by vm_compute).
  split; [exact personSchema_uniqueIds|].
  split; [exact Hin|]. split; [left; reflexivity|]. split; [exact Hne|].
  split; [reflexivity|]. split; [reflexivity|].
  exact (validate_select_date_unchecked personSchema choiceOnly choice
           personSchema_uniqueIds Hin (or_introl eq_refl) Hne).
Defined.



(** The record submitted for [goodInput]: the age as a number, the two
    strings as they were typed. *)
Example submit_goodInput :
  handleSubmit personSchema goodInput
  = Some (<["age" := VNumber (Some 45%Z)]>
            (<["code" := VString "xabcx"]> {["choice" := VString "C"]})).
Proof. reflexivity. Qed.





Lemma updateField_unknown_id_witness :
  ("f_none" ∉ (FieldSchema.id <$> FormSchema.fields personSchema))
  ∧ FormSchema.fields
      (updateField personSchema "f_none" (typeOnlyPatch date) "t1")
    = FormSchema.fields personSchema
  ∧ FormSchema.updatedAt
      (updateField personSchema "f_none" (typeOnlyPatch date) "t1")
    = "t1".
Proof.
  assert ("f_none" ∉ (FieldSchema.id <$> FormSchema.fields personSchema))
    as Hid.
  { apply (bool_decide_unpack _). by vm_compute. }
  split; [exact Hid|].
  exact (updateField_unknown_id personSchema "f_none" (typeOnlyPatch date)
           "t1" Hid).
Defined.

(** C10, as stated, fails in two ways.  On a schema with a duplicated name:
    [first_x] is an optional text field whose raw input is absent,
    validation succeeds, and the record holds under its name the value of
    the later field [second_x], not the empty string.  On a schema with a
    field named [__proto__]: the record has no entry under that name. *)
Lemma coerce_entry_overwritten_or_missing :
  (first_x ∈ FormSchema.fields duplicateSchema
   ∧ FieldSchema.type first_x = text
   ∧ FieldSchema.required first_x = None
   ∧ secondOnly !! FieldSchema.id first_x = None
   ∧ handleSubmit duplicateSchema secondOnly
     = Some (coerce duplicateSchema secondOnly)
   ∧ coerce duplicateSchema secondOnly !! FieldSchema.name first_x
     = Some (VString "hello")
   ∧ coerce duplicateSchema secondOnly !! FieldSchema.name first_x
     ≠ Some (VString ""))
  ∧ (proto_field ∈ FormSchema.fields protoSchema
     ∧ handleSubmit protoSchema protoInput
       = Some (coerce protoSchema protoInput)
     ∧ coerce protoSchema protoInput !! FieldSchema.name proto_field = None).
Proof.
  split.
  - split; [simpl; left|]. repeat (split; [reflexivity|]).
    change (Some (VString "hello") ≠ Some (VString "")). by intros [=].
  - split; [simpl; left|]. split; reflexivity.
Qed.

Lemma personSchema_code_last : lastWithName personSchema code.
Proof.
  exists [age], [choice]. split; [done|].
  intros g [->|Hg]%elem_of_cons; [done|]. by apply elem_of_nil in Hg.
Qed.

Lemma coerce_covers_every_name_witness :
  trim_empty
  ∧ ordinaryIds duplicateSchema
  ∧ ordinaryIds personSchema
  ∧ FieldSchema.name first_x ≠ "__proto__"
  ∧ FieldSchema.name code ≠ "__proto__"
  ∧ is_Some (coerce duplicateSchema secondOnly !! FieldSchema.name first_x)
  ∧ coerce personSchema choiceOnly !! FieldSchema.name code
    = Some (VString "").
Proof.
  assert (FieldSchema.name first_x ≠ "__proto__") as Hx by discriminate.
  assert (FieldSchema.name code ≠ "__proto__") as Hc by discriminate.
  split; [exact ref_trim_empty|].
  split; [exact duplicateSchema_ordinaryIds|].
  split; [exact personSchema_ordinaryIds|].
  split; [exact Hx|]. split; [exact Hc|]. split.
  - apply (coerce_covers_every_name duplicateSchema secondOnly
             ref_trim_empty duplicateSchema_ordinaryIds); [|exact Hx].
    simpl; left.
  - apply (coerce_covers_every_name personSchema choiceOnly ref_trim_empty
             personSchema_ordinaryIds);
      [exact personSchema_code_last|exact Hc|reflexivity].
Defined.

(** C4, as stated, fails for [updateField] alone: the patch [{ type }]
    changes the type of the select field [choice] to number and leaves its
    options in place, and they are still there after the type is patched
    back to select. *)
Lemma updateField_type_patch_keeps_options :
  FieldSchema.type <$>
    FormSchema.fields
      (updateField personSchema "f_choice" (typeOnlyPatch number) "t1")
  = [number; text; number]
  ∧ FieldSchema.options <$>
      FormSchema.fields
        (updateField personSchema "f_choice" (typeOnlyPatch number) "t1")
    = [None; None; Some ["A"; "B"]]
  ∧ FieldSchema.options <$>
      FormSchema.fields
        (updateField
           (updateField personSchema "f_choice" (typeOnlyPatch number) "t1")
           "f_choice" (typeOnlyPatch select) "t2")
    = [None; None; Some ["A"; "B"]].
Proof. by vm_compute. Qed.

Lemma typeChange_clears_options_witness :
  number ≠ select
  ∧ FieldSchema.options
      (spreadField choice (handleTypeChange number)) = None
  ∧ FieldSchema.options
      (spreadField (spreadField choice (handleTypeChange number))
                   (handleTypeChange select)) = None.
Proof.
  assert (number ≠ select) as Hne by discriminate.
  destruct (typeChange_clears_options personSchema choice number "t1" Hne)
    as [Hclear Hback].
  split; [exact Hne|]. split.
  - apply (Hclear (spreadField choice (handleTypeChange number)));
      [simpl; right; right; left|reflexivity].
  - apply (Hback choice "t2"
             (spreadField (spreadField choice (handleTypeChange number))
                          (handleTypeChange select)));
      [reflexivity|simpl; right; right; left|reflexivity].
Defined.

End Instances.

(** * Further properties of the code *)

(** ** The form engine *)

Section EngineProperties.
Context `{RT : JSRuntime}.
Implicit Types (schema : FormSchema.t) (values : gmap string string).
Implicit Types (f : FieldSchema.t) (errs : gmap string string).

Lemma foldl_validateStep_is_Some values fs : ∀ errs i,
  is_Some (foldl (validateStep values) errs fs !! i)
  ↔ is_Some (errs !! i)
    ∨ (i ≠ "__proto__"
       ∧ ∃ f, f ∈ fs ∧ FieldSchema.id f = i
              ∧ is_Some (fieldError values f)).
Proof.
  induction fs as [|g fs IH]; intros errs i; simpl.
  - split; [by left|]. intros [?|(_ & f & Hf & _)]; [done|].
    by apply elem_of_nil in Hf.
  - rewrite IH. split.
    + intros [Hs|(Hp & f & Hf & Hid & Herr)].
      * destruct (decide (FieldSchema.id g = i)) as [Heq|Hne].
        -- rewrite <- Heq, validateStep_same in Hs.
           destruct (fieldError values g) as [e|] eqn:Hg;
             [|left; by rewrite <- Heq].
           case_bool_decide as Hp; [left; by rewrite <- Heq|].
           right. split; [by rewrite <- Heq|].
           exists g. split; [by left|]. by rewrite Hg.
        -- rewrite validateStep_other in Hs by done. by left.
      * right. split; [done|]. exists f. split; [by right|done].
    + intros [Hs|(Hp & f & Hf & Hid & Herr)].
      * left. destruct (decide (FieldSchema.id g = i)) as [Heq|Hne].
        -- rewrite <- Heq, validateStep_same. rewrite <- Heq in Hs.
           destruct (fieldError values g); [|done]. by case_bool_decide.
        -- by rewrite validateStep_other.
      * apply elem_of_cons in Hf as [->|Hf].
        -- left. destruct Herr as [e He].
           rewrite <- Hid, validateStep_same, He.
           rewrite bool_decide_eq_false_2; [done|]. by rewrite Hid.
        -- right. split; [done|]. by exists f.
Qed.

(** X1. In a schema whose field identifiers are ordinary, the error map has
    an entry under an identifier exactly when some field with that
    identifier fails its checks: an error, once written, is never removed by
    a later field, even when identifiers repeat, and no entry is written
    under a key that is not a field's identifier. *)
Theorem errors_entry_iff_some_field_fails schema values i :
  ordinaryIds schema →
  is_Some ((validate schema values).1 !! i)
  ↔ ∃ f, f ∈ FormSchema.fields schema ∧ FieldSchema.id f = i
         ∧ is_Some (fieldError values f).
Proof.
  intros Hord. simpl. unfold newErrorsOf.
  rewrite foldl_validateStep_is_Some, lookup_empty. split.
  - intros [Hs|[_ ?]]; [|done]. by destruct Hs.
  - intros (f & Hf & Hid & Herr). right. split; [|by exists f].
    rewrite <- Hid. by eapply ordinaryIds_not_proto.
Qed.

Lemma validate_true_iff schema values :
  ordinaryIds schema →
  (validate schema values).2 = true
  ↔ ∀ f, f ∈ FormSchema.fields schema → fieldError values f = None.
Proof.
  intros Hord. simpl. rewrite bool_decide_eq_true, map_size_empty_iff.
  split.
  - intros Hempty f Hf.
    destruct (fieldError values f) as [e|] eqn:He; [|done].
    assert (is_Some (newErrorsOf schema values !! FieldSchema.id f)) as Hs.
    { unfold newErrorsOf. apply foldl_validateStep_is_Some. right.
      split; [by eapply ordinaryIds_not_proto|].
      exists f. by rewrite He. }
    rewrite Hempty, lookup_empty in Hs. by destruct Hs.
  - intros Hall. apply map_eq. intros i. rewrite lookup_empty.
    apply eq_None_not_Some. unfold newErrorsOf.
    rewrite foldl_validateStep_is_Some.
    intros [Hs|(_ & f & Hf & _ & Hs)].
    + rewrite lookup_empty in Hs. by destruct Hs.
    + rewrite Hall in Hs by done. by destruct Hs.
Qed.

(** X2. In a schema whose field identifiers are ordinary, [handleSubmit]
    passes a record to [onSubmit] exactly when every field of the schema
    passes its checks; it returns without a record as soon as one field
    fails. *)
Theorem submit_iff_every_field_passes schema values :
  ordinaryIds schema →
  is_Some (handleSubmit schema values)
  ↔ ∀ f, f ∈ FormSchema.fields schema → fieldError values f = None.
Proof.
  intros Hord. rewrite <- validate_true_iff by done. unfold handleSubmit.
  by destruct (validate schema values).2; split.
Qed.





Lemma handleSubmit_Some schema values data :
  ordinaryIds schema →
  handleSubmit schema values = Some data →
  data = coerce schema values
  ∧ ∀ f, f ∈ FormSchema.fields schema → fieldError values f = None.
Proof.
  intros Hord Hsub. split.
  - unfold handleSubmit in Hsub.
    destruct (validate schema values).2; by inversion Hsub.
  - apply validate_true_iff; [done|]. unfold handleSubmit in Hsub.
    by destruct (validate schema values).2.
Qed.

Lemma lastWithName_elem_of schema f :
  lastWithName schema f → f ∈ FormSchema.fields schema.
Proof.
  intros (before & after & -> & _). apply elem_of_app. right. by left.
Qed.

(** X5. In a submitted record, the entry of a number field with a filled
    input (the last field with its name, a name other than [__proto__]) is
    the number parsed from the trimmed input; it is not [NaN], it is not
    below a set [min] and not above a set [max].  The field identifiers are
    ordinary. *)
Theorem submitted_number_within_bounds schema values data f :
  Number_ignores_trim →
  ordinaryIds schema →
  handleSubmit schema values = Some data →
  lastWithName schema f →
  FieldSchema.name f ≠ "__proto__" →
  FieldSchema.type f = number →
  String_trim (default "" (values !! FieldSchema.id f)) ≠ "" →
  ∃ n, data !! FieldSchema.name f = Some (VNumber n)
       ∧ n = Number (String_trim (default "" (values !! FieldSchema.id f)))
       ∧ Number_isNaN n = false
       ∧ (∀ lo, FieldSchema.min f = Some lo → num_lt n lo = false)
       ∧ (∀ hi, FieldSchema.max f = Some hi → num_lt hi n = false).
Proof.
  intros Hlaw Hord Hsub Hlast Hproto Hty Hne.
  apply handleSubmit_Some in Hsub as [-> Hpass]; [|done].
  specialize (Hpass f (lastWithName_elem_of _ _ Hlast)).
  exists (Number (String_trim (default "" (values !! FieldSchema.id f)))).
  split.
  { rewrite coerce_lookup_last by done. unfold parsedOf, rawOf.
    rewrite Hty, bool_decide_eq_true_2 by done.
    rewrite (bool_decide_eq_false_2 _ Hne). simpl. by rewrite Hlaw. }
  split; [done|].
  unfold fieldError, rawOf in Hpass.
  rewrite (bool_decide_eq_false_2 _ Hne), andb_false_r in Hpass.
  rewrite Hty, bool_decide_eq_true_2 in Hpass by done.
  unfold numberError in Hpass.
  destruct (Number_isNaN _) eqn:Hnan; [done|]. split; [done|].
  unfold violatedBound in Hpass. split.
  - intros lo Hlo. rewrite Hlo in Hpass. by destruct (num_lt _ lo).
  - intros hi Hhi. rewrite Hhi in Hpass.
    destruct (FieldSchema.min f) as [lo|].
    + destruct (num_lt _ lo); [done|]. by destruct (num_lt hi _).
    + by destruct (num_lt hi _).
Qed.

(** X6. In a schema whose field identifiers are ordinary, a record is never
    submitted while a required field is blank: when [handleSubmit] produces
    a record, the trimmed input of every required field is not empty. *)
Theorem submitted_required_not_blank schema values data f :
  ordinaryIds schema →
  handleSubmit schema values = Some data →
  f ∈ FormSchema.fields schema →
  FieldSchema.required f = Some true →
  String_trim (default "" (values !! FieldSchema.id f)) ≠ "".
Proof.
  intros Hord Hsub Hin Hreq Hblank.
  apply handleSubmit_Some in Hsub as [_ Hpass]; [|done].
  specialize (Hpass f Hin). unfold fieldError, rawOf in Hpass.
  by rewrite Hreq, Hblank in Hpass.
Qed.

(** X7. In a schema whose field identifiers are ordinary, when a record is
    submitted, the trimmed input of every text field that has a pattern
    which compiles, and whose input is not blank, matches that pattern.
    (The record stores the untrimmed input.) *)
Theorem submitted_text_matches_pattern schema values data f p regex :
  ordinaryIds schema →
  handleSubmit schema values = Some data →
  f ∈ FormSchema.fields schema →
  FieldSchema.type f = text →
  FieldSchema.pattern f = Some p →
  p ≠ "" →
  RegExp p = Some regex →
  String_trim (default "" (values !! FieldSchema.id f)) ≠ "" →
  RegExp_test regex (String_trim (default "" (values !! FieldSchema.id f)))
  = true.
Proof.
  intros Hord Hsub Hin Hty Hpat Hp Hre Hne.
  apply handleSubmit_Some in Hsub as [_ Hpass]; [|done].
  specialize (Hpass f Hin). unfold fieldError, rawOf in Hpass.
  rewrite (bool_decide_eq_false_2 _ Hne), andb_false_r in Hpass.
  rewrite Hty, Hpat in Hpass. simpl in Hpass.
  rewrite (bool_decide_eq_false_2 _ Hp) in Hpass. simpl in Hpass.
  unfold patternError in Hpass. rewrite Hre in Hpass.
  by destruct (RegExp_test regex _).
Qed.

Lemma foldl_writeField_dom values fs : ∀ data : gmap string JSValue,
  dom (foldl (writeField values) data fs)
  = dom data
    ∪ list_to_set (filter (λ n, n ≠ "__proto__") (FieldSchema.name <$> fs)).
Proof.
  induction fs as [|g fs IH]; intros data.
  - simpl. by rewrite (right_id_L ∅ (∪)).
  - change (foldl (writeField values) data (g :: fs))
      with (foldl (writeField values) (writeField values data g) fs).
    rewrite IH. unfold writeField. rewrite objAssign_dom.
    rewrite <- (assoc_L (∪)). f_equal.
    rewrite fmap_cons.
    change (FieldSchema.name g :: (FieldSchema.name <$> fs))
      with ([FieldSchema.name g] ++ (FieldSchema.name <$> fs))%list.
    by rewrite filter_app, list_to_set_app_L.
Qed.

(** X8. In a schema whose field identifiers are ordinary, the keys of the
    record built by coercion are exactly the names of the schema's fields
    other than [__proto__]: one entry per distinct name and no other key. *)
Theorem coerce_keys_are_field_names schema values :
  ordinaryIds schema →
  dom (coerce schema values)
  = list_to_set
      (filter (λ n, n ≠ "__proto__")
              (FieldSchema.name <$> FormSchema.fields schema)).
Proof.
  intros _. unfold coerce. rewrite foldl_writeField_dom.
  by rewrite dom_empty_L, (left_id_L ∅ (∪)).
Qed.

Lemma resetValues_lookup schema i :
  ordinaryIds schema →
  resetValues schema !! i
  = if bool_decide (i ∈ (FieldSchema.id <$> FormSchema.fields schema))
    then Some "" else None.
Proof.
  unfold resetValues, ordinaryIds.
  assert (∀ fs (m : gmap string string),
            Forall (λ f, FieldSchema.id f ∉ inheritedKeys) fs →
            foldl (λ initial f, objAssign (FieldSchema.id f) "" initial) m fs
              !! i
            = if bool_decide (i ∈ (FieldSchema.id <$> fs))
              then Some "" else m !! i) as Hgen.
  { induction fs as [|g fs IH]; intros m Hord; [done|].
    apply Forall_cons in Hord as [Hg Hord]. simpl. rewrite IH by done.
    assert (FieldSchema.id g ≠ "__proto__") as Hp.
    { intros Heq. apply Hg. rewrite Heq. by left. }
    destruct (decide (i = FieldSchema.id g)) as [->|Hne].
    - rewrite objAssign_lookup_eq, (bool_decide_eq_false_2 _ Hp).
      rewrite (bool_decide_eq_true_2 (_ ∈ _ :: _)) by by left.
      by case_bool_decide.
    - rewrite objAssign_lookup_ne by done.
      case_bool_decide as H1.
      + rewrite bool_decide_eq_true_2; [done|by right].
      + rewrite bool_decide_eq_false_2; [done|].
        by intros [?|?]%elem_of_cons. }
  intros Hord. rewrite Hgen by done. by rewrite lookup_empty.
Qed.

(** X9. In a schema whose field identifiers are ordinary, a submission has
    one of two outcomes.  Either a record is passed on, the error map is
    cleared and every field's input is reset to the empty string (and
    nothing else is kept in the inputs); or nothing is passed on, the inputs
    are kept as they were and the stored error map is not empty. *)
Theorem submit_outcome schema (st : FormState) :
  ordinaryIds schema →
  match (submit schema st).2 with
  | Some data =>
      data = coerce schema (st_values st)
      ∧ st_errors (submit schema st).1 = ∅
      ∧ ∀ i, st_values (submit schema st).1 !! i
             = if bool_decide
                    (i ∈ (FieldSchema.id <$> FormSchema.fields schema))
               then Some "" else None
  | None =>
      st_values (submit schema st).1 = st_values st
      ∧ st_errors (submit schema st).1 = (validate schema (st_values st)).1
      ∧ st_errors (submit schema st).1 ≠ ∅
  end.
Proof.
  intros Hord. unfold submit.
  destruct (validate schema (st_values st)).2 eqn:Hok; simpl.
  - split; [done|]. split; [done|]. intros i. by apply resetValues_lookup.
  - split; [done|]. split; [done|]. intros Hempty.
    simpl in Hok. rewrite Hempty in Hok.
    by rewrite bool_decide_eq_true_2 in Hok.
Qed.

End EngineProperties.

(** ** The schema editor *)

Section EditorProperties.
Context `{RT : JSRuntime}.
Implicit Types (schema : FormSchema.t) (f field : FieldSchema.t).
Implicit Types (patch : FieldPatch.t).

Lemma updateField_fields_eq schema fieldId patch now :
  FormSchema.fields (updateField schema fieldId patch now)
  = (λ f, if bool_decide (FieldSchema.id f = fieldId)
          then spreadField f patch else f) <$> FormSchema.fields schema.
Proof. done. Qed.

(** X10. [updateField] with a patch that has no [id] key keeps the number,
    the order and the identifiers of the fields (so pairwise distinct
    identifiers stay pairwise distinct), and leaves every field with another
    identifier exactly as it was, at its position. *)
Theorem updateField_frame schema fieldId patch now :
  FieldPatch.id patch = None →
  FieldSchema.id <$> FormSchema.fields (updateField schema fieldId patch now)
  = FieldSchema.id <$> FormSchema.fields schema
  ∧ (uniqueIds schema → uniqueIds (updateField schema fieldId patch now))
  ∧ ∀ k f, FormSchema.fields schema !! k = Some f →
           FieldSchema.id f ≠ fieldId →
           FormSchema.fields (updateField schema fieldId patch now) !! k
           = Some f.
Proof.
  intros Hpid.
  assert (FieldSchema.id <$>
            FormSchema.fields (updateField schema fieldId patch now)
          = FieldSchema.id <$> FormSchema.fields schema) as Hids.
  { rewrite updateField_fields_eq, <- list_fmap_compose.
    apply list_fmap_ext. intros k f _. simpl.
    case_bool_decide; [|done]. simpl. by rewrite Hpid. }
  split; [done|]. split.
  - unfold uniqueIds. by rewrite Hids.
  - intros k f Hk Hne. rewrite updateField_fields_eq, list_lookup_fmap, Hk.
    simpl. by rewrite bool_decide_eq_false_2.
Qed.

(** X11. [addField] with a fresh identifier keeps the identifiers pairwise
    distinct; it keeps the existing fields in place and appends one field
    that carries the new identifier and the defaults: type text, not
    required, no options. *)
Theorem addField_appends_default_field schema newId now :
  uniqueIds schema →
  newId ∉ (FieldSchema.id <$> FormSchema.fields schema) →
  uniqueIds (addField schema newId now)
  ∧ ∃ newField,
      FormSchema.fields (addField schema newId now)
      = (FormSchema.fields schema ++ [newField])%list
      ∧ FieldSchema.id newField = newId
      ∧ FieldSchema.type newField = text
      ∧ FieldSchema.required newField = Some false
      ∧ FieldSchema.options newField = None.
Proof.
  intros Hnd Hfresh. split.
  - unfold uniqueIds, addField. simpl. rewrite fmap_app. simpl.
    apply NoDup_app. split; [done|]. split; [|apply NoDup_singleton].
    intros i Hi [->|Hnil]%elem_of_cons; [done|].
    by apply elem_of_nil in Hnil.
  - by eexists.
Qed.

(** X12. [removeField] yields exactly the fields whose identifier differs
    from the one given, in their original order; no field with that
    identifier is left, and pairwise distinct identifiers stay pairwise
    distinct. *)
Theorem removeField_removes_exactly schema fieldId now :
  (∀ f, f ∈ FormSchema.fields (removeField schema fieldId now)
        ↔ f ∈ FormSchema.fields schema ∧ FieldSchema.id f ≠ fieldId)
  ∧ FormSchema.fields (removeField schema fieldId now)
    `sublist_of` FormSchema.fields schema
  ∧ (fieldId
     ∉ (FieldSchema.id <$>
          FormSchema.fields (removeField schema fieldId now)))
  ∧ (uniqueIds schema → uniqueIds (removeField schema fieldId now)).
Proof.
  simpl. split; [|split; [|split]].
  - intros f. rewrite list_elem_of_filter. tauto.
  - apply sublist_filter.
  - intros (f & Hid & Hin)%list_elem_of_fmap.
    apply list_elem_of_filter in Hin as [Hne _]. by destruct Hne.
  - unfold uniqueIds. simpl. intros Hnd.
    eapply sublist_NoDup; [exact Hnd|]. apply fmap_sublist, sublist_filter.
Qed.

(** X13. Adding a field with a fresh identifier and then removing the field
    with that identifier gives back the original list of fields. *)
Theorem removeField_addField schema newId now now' :
  newId ∉ (FieldSchema.id <$> FormSchema.fields schema) →
  FormSchema.fields (removeField (addField schema newId now) newId now')
  = FormSchema.fields schema.
Proof.
  intros Hfresh. simpl. rewrite filter_app.
  rewrite filter_cons_False by (simpl; intros Hne; by apply Hne).
  rewrite filter_nil, app_nil_r.
  induction (FormSchema.fields schema) as [|g fs IH]; [done|].
  rewrite fmap_cons, not_elem_of_cons in Hfresh.
  destruct Hfresh as [Hg Hfs].
  rewrite filter_cons_True by done. by rewrite IH.
Qed.

(** X14. The operations on fields leave the name, the description and the
    layout of the schema as they were; the changes of layout, name and
    description leave the list of fields as it was. *)
Theorem dispatch_frame schema (ev : EditorEvent) now :
  match ev with
  | AddField _ | UpdateField _ _ | RemoveField _ =>
      FormSchema.name (dispatch schema ev now) = FormSchema.name schema
      ∧ FormSchema.description (dispatch schema ev now)
        = FormSchema.description schema
      ∧ FormSchema.layout (dispatch schema ev now) = FormSchema.layout schema
  | LayoutChange _ | NameChange _ | DescriptionChange _ =>
      FormSchema.fields (dispatch schema ev now) = FormSchema.fields schema
  end.
Proof. by destruct ev. Qed.

Lemma spreadField_thenPatch f (p1 p2 : FieldPatch.t) :
  spreadField (spreadField f p1) p2 = spreadField f (thenPatch p1 p2).
Proof.
  unfold spreadField, thenPatch. simpl.
  destruct (FieldPatch.id p2), (FieldPatch.name p2), (FieldPatch.label p2),
    (FieldPatch.type p2), (FieldPatch.required p2),
    (FieldPatch.placeholder p2), (FieldPatch.min p2), (FieldPatch.max p2),
    (FieldPatch.pattern p2), (FieldPatch.options p2); done.
Qed.

(** X15. Two successive calls of [updateField] on the same identifier, the
    first with a patch that has no [id] key, give the same fields as one
    call with the two patches merged, the keys of the second patch taking
    precedence. *)
Theorem updateField_twice schema fieldId (p1 p2 : FieldPatch.t) now now' :
  FieldPatch.id p1 = None →
  FormSchema.fields
    (updateField (updateField schema fieldId p1 now) fieldId p2 now')
  = FormSchema.fields (updateField schema fieldId (thenPatch p1 p2) now').
Proof.
  intros Hpid. rewrite !updateField_fields_eq, <- list_fmap_compose.
  apply list_fmap_ext. intros k f _. simpl.
  destruct (decide (FieldSchema.id f = fieldId)) as [Hf|Hf].
  - rewrite !(bool_decide_eq_true_2 _ Hf). simpl. rewrite Hpid. simpl.
    rewrite (bool_decide_eq_true_2 _ Hf). apply spreadField_thenPatch.
  - by rewrite !(bool_decide_eq_false_2 _ Hf).
Qed.

(** X16. A type change to select made through [handleTypeChange] touches no
    options: every field keeps the options it had. *)
Theorem typeChange_to_select_keeps_options schema field now :
  FieldSchema.options <$>
    FormSchema.fields (rowTypeChange schema field select now)
  = FieldSchema.options <$> FormSchema.fields schema.
Proof.
  unfold rowTypeChange. rewrite updateField_fields_eq, <- list_fmap_compose.
  apply list_fmap_ext. intros k f _. simpl. by case_bool_decide.
Qed.

(** X17. Emptying the pattern box of a text field removes its pattern:
    afterwards every input of that field that is not blank passes
    validation. *)
Theorem cleared_pattern_accepts_everything
    (values : gmap string string) f :
  FieldSchema.type f = text →
  String_trim (default "" (values !! FieldSchema.id f)) ≠ "" →
  FieldSchema.pattern (spreadField f (handlePatternChange "")) = None
  ∧ fieldError values (spreadField f (handlePatternChange "")) = None.
Proof.
  intros Hty Hne. split; [done|].
  unfold fieldError, rawOf. simpl. rewrite Hty.
  rewrite (bool_decide_eq_false_2 _ Hne), andb_false_r. done.
Qed.

End EditorProperties.

(** ** The options input of a field row *)

Section OptionsProperties.
Context `{RT : JSRuntime}.

Lemma split_comma_nonempty s : split_comma s ≠ [].
Proof.
  destruct s as [|c r]; simpl; [done|].
  case_bool_decide; [done|]. by destruct (split_comma r).
Qed.

Lemma split_comma_snoc s :
  split_comma (s +:+ ",") = (split_comma s ++ [""])%list.
Proof.
  induction s as [|c r IH]; [done|]. simpl.
  case_bool_decide; rewrite IH; [done|].
  pose proof (split_comma_nonempty r). by destruct (split_comma r).
Qed.

(** X18. A comma typed at the end of the options text is dropped by the
    parse: the text with a trailing comma yields the same options as the
    text without it. *)
Theorem parseOptions_trailing_comma s :
  trim_empty →
  parseOptions (s +:+ ",") = parseOptions s.
Proof.
  intros Hlaw. unfold parseOptions.
  rewrite split_comma_snoc, fmap_app, filter_app. simpl.
  unfold trim_empty in Hlaw. rewrite Hlaw.
  rewrite filter_cons_False by (intros Hne; by apply Hne).
  by rewrite filter_nil, app_nil_r.
Qed.

Lemma split_comma_no_comma o :
  no_comma o = true → split_comma o = [o].
Proof.
  induction o as [|c r IH]; [done|]. simpl.
  intros [Hc Hr]%andb_true_iff. apply negb_true_iff in Hc.
  rewrite Hc. by rewrite IH.
Qed.

Lemma split_comma_app o r :
  no_comma o = true →
  split_comma (o +:+ String "," r) = o :: split_comma r.
Proof.
  induction o as [|c o IH]; [done|]. simpl.
  intros [Hc Hr]%andb_true_iff. apply negb_true_iff in Hc.
  rewrite Hc. by rewrite IH.
Qed.

Lemma string_app_assoc (a b c : string) :
  (a +:+ b) +:+ c = a +:+ (b +:+ c).
Proof.
  induction a as [|x a IH]; [done|].
  change (String x ((a +:+ b) +:+ c) = String x (a +:+ (b +:+ c))).
  by rewrite IH.
Qed.

Lemma parse_join_prefixed (opts : list string) : ∀ pre,
  trim_leading_space →
  pre = "" ∨ pre = " " →
  opts ≠ [] →
  Forall cleanOption opts →
  filter (λ o, o ≠ "")
         (String_trim <$> split_comma (pre +:+ join ", " opts))
  = opts.
Proof.
  intros pre Hlead. revert pre.
  assert (∀ pre o, pre = "" ∨ pre = " " → cleanOption o →
            no_comma (pre +:+ o) = true ∧ String_trim (pre +:+ o) = o)
    as Hpre.
  { intros pre o [->| ->] (Hne & Hnc & Htrim); [done|].
    split; [done|]. by rewrite Hlead. }
  induction opts as [|o opts IH]; intros pre Hp Hnil Hclean; [done|].
  apply Forall_cons in Hclean as [Ho Hclean].
  destruct (Hpre pre o Hp Ho) as [Hnc Htrim].
  destruct opts as [|o' opts].
  - simpl. rewrite split_comma_no_comma by done. simpl. rewrite Htrim.
    rewrite filter_cons_True by apply Ho. done.
  - change (join ", " (o :: o' :: opts))
      with (o +:+ String "," (" " +:+ join ", " (o' :: opts))).
    rewrite <- string_app_assoc, split_comma_app by done.
    rewrite fmap_cons, Htrim, filter_cons_True by apply Ho.
    f_equal. apply IH; [by right|done|done].
Qed.

(** X19. The options input shows the options joined by a comma and a space;
    parsing that text gives the options back, provided each option is not
    empty, has no comma and is unchanged by [trim]. *)
Theorem parseOptions_optionsText (opts : list string) :
  trim_empty →
  trim_leading_space →
  Forall cleanOption opts →
  parseOptions (join ", " opts) = opts.
Proof.
  intros Hempty Hlead Hclean. unfold parseOptions.
  destruct opts as [|o opts].
  - simpl. unfold trim_empty in Hempty. rewrite Hempty.
    by rewrite filter_cons_False by (intros Hne; by apply Hne).
  - apply (parse_join_prefixed (o :: opts) ""); [done|by left|done|done].
Qed.

End OptionsProperties.

(** ** The application shell *)

Section AppProperties.
Context `{RT : JSRuntime}.
Implicit Types (st : AppState) (s : FormSchema.t) (e : FormEntry.t).

Lemma dispatch_id s (ev : EditorEvent) now :
  FormSchema.id (dispatch s ev now) = FormSchema.id s.
Proof. by destruct ev. Qed.

Lemma find_replace_by_id (sel : option string) (updated s : FormSchema.t)
    (l : list FormSchema.t) :
  FormSchema.id updated = FormSchema.id s →
  List.find (λ x, bool_decide (Some (FormSchema.id x) = sel)) l = Some s →
  List.find (λ x, bool_decide (Some (FormSchema.id x) = sel))
    (map (λ x, if bool_decide (FormSchema.id x = FormSchema.id updated)
               then updated else x) l)
  = Some updated.
Proof.
  intros Hid. induction l as [|x l IH]; [done|]. simpl.
  destruct (bool_decide (Some (FormSchema.id x) = sel)) eqn:Hx.
  - intros [= ->].
    rewrite (bool_decide_eq_true_2 (FormSchema.id s = FormSchema.id updated))
      by done.
    by rewrite Hid, Hx.
  - intros Hfind. pose proof (find_some _ _ Hfind) as [_ Hs].
    apply bool_decide_eq_true in Hs. apply bool_decide_eq_false in Hx.
    rewrite (bool_decide_eq_false_2
               (FormSchema.id x = FormSchema.id updated)).
    + rewrite (bool_decide_eq_false_2 _ Hx). by apply IH.
    + intros Heq. apply Hx. by rewrite Heq, Hid.
Qed.

(** X20. After an edit made in the schema designer, the selected schema is
    the edited schema: the result of the editor replaces the schema it was
    made from and stays selected. *)
Theorem editSelected_selects_edited st s (ev : EditorEvent) now :
  selectedSchema st = Some s →
  selectedSchema (editSelected st ev now) = Some (dispatch s ev now).
Proof.
  intros Hsel. unfold editSelected. rewrite Hsel.
  unfold selectedSchema, handleUpdateSchema. simpl.
  apply (find_replace_by_id _ _ s); [apply dispatch_id|done].
Qed.

Lemma filter_schemaId_ne (j i : string) (l : list FormEntry.t) :
  j ≠ i →
  filter (λ e, FormEntry.schemaId e = j)
         (filter (λ e, FormEntry.schemaId e ≠ i) l)
  = filter (λ e, FormEntry.schemaId e = j) l.
Proof.
  intros Hne. induction l as [|e l IH]; [done|].
  destruct (decide (FormEntry.schemaId e = i)) as [Hi|Hi].
  - rewrite (filter_cons_False (λ e, FormEntry.schemaId e ≠ i))
      by (intros Hn; by apply Hn).
    rewrite (filter_cons_False (λ e, FormEntry.schemaId e = j)); [done|].
    intros Hj. apply Hne. by rewrite <- Hj, Hi.
  - rewrite (filter_cons_True (λ e, FormEntry.schemaId e ≠ i)) by done.
    destruct (decide (FormEntry.schemaId e = j)) as [Hj|Hj].
    + rewrite !(filter_cons_True (λ e, FormEntry.schemaId e = j)) by done.
      by rewrite IH.
    + by rewrite !(filter_cons_False (λ e, FormEntry.schemaId e = j)).
Qed.

(** X21. Deleting a schema, once confirmed, cascades: no schema with that
    identifier and no entry that refers to it is left, while the entries of
    every other schema are kept, in their order.  When the confirmation is
    declined the state is unchanged. *)
Theorem handleDeleteSchema_cascades st id :
  (∀ s, s ∈ app_schemas (handleDeleteSchema st id true) →
        FormSchema.id s ≠ id)
  ∧ (∀ e, e ∈ app_entries (handleDeleteSchema st id true) →
          FormEntry.schemaId e ≠ id)
  ∧ (∀ j, j ≠ id →
          filter (λ e, FormEntry.schemaId e = j)
                 (app_entries (handleDeleteSchema st id true))
          = filter (λ e, FormEntry.schemaId e = j) (app_entries st))
  ∧ handleDeleteSchema st id false = st.
Proof.
  simpl. split; [|split; [|split]].
  - by intros s [? _]%list_elem_of_filter.
  - by intros e [? _]%list_elem_of_filter.
  - intros j Hj. by apply filter_schemaId_ne.
  - done.
Qed.

Lemma find_filter_schemas (sel : option string) (i : string)
    (l : list FormSchema.t) :
  sel ≠ Some i →
  List.find (λ x, bool_decide (Some (FormSchema.id x) = sel))
    (filter (λ x, FormSchema.id x ≠ i) l)
  = List.find (λ x, bool_decide (Some (FormSchema.id x) = sel)) l.
Proof.
  intros Hsel. induction l as [|x l IH]; [done|].
  destruct (decide (FormSchema.id x = i)) as [Hi|Hi].
  - rewrite filter_cons_False by (intros Hn; by apply Hn). simpl.
    rewrite bool_decide_eq_false_2; [done|].
    intros Heq. apply Hsel. by rewrite <- Heq, Hi.
  - rewrite filter_cons_True by done. simpl. by rewrite IH.
Qed.

(** X22. Deleting a schema other than the selected one leaves the selection,
    the selected schema and the entries shown for it as they were. *)
Theorem handleDeleteSchema_keeps_other_selection st id confirmed :
  app_selectedSchemaId st ≠ Some id →
  app_selectedSchemaId (handleDeleteSchema st id confirmed)
  = app_selectedSchemaId st
  ∧ selectedSchema (handleDeleteSchema st id confirmed) = selectedSchema st
  ∧ schemaEntries (handleDeleteSchema st id confirmed) = schemaEntries st.
Proof.
  intros Hsel. destruct confirmed; [|done].
  assert (selectedSchema (handleDeleteSchema st id true) = selectedSchema st)
    as Hsame.
  { unfold selectedSchema. simpl.
    rewrite (bool_decide_eq_false_2 _ Hsel). by apply find_filter_schemas. }
  split; [|split; [done|]].
  - simpl. by rewrite (bool_decide_eq_false_2 _ Hsel).
  - unfold schemaEntries. rewrite Hsame.
    destruct (selectedSchema st) as [s|] eqn:Hs; [|done]. simpl.
    apply filter_schemaId_ne.
    unfold selectedSchema in Hs. apply find_some in Hs as [_ Hs].
    apply bool_decide_eq_true in Hs. intros Heq. apply Hsel.
    by rewrite <- Hs, Heq.
Qed.

Lemma find_filter_none (i : string) (l : list FormSchema.t) :
  List.find (λ x, bool_decide (Some (FormSchema.id x) = Some i))
    (filter (λ x, FormSchema.id x ≠ i) l)
  = None.
Proof.
  induction l as [|x l IH]; [done|].
  destruct (decide (FormSchema.id x = i)) as [Hi|Hi].
  - by rewrite filter_cons_False by (intros Hn; by apply Hn).
  - rewrite filter_cons_True by done. simpl.
    rewrite bool_decide_eq_false_2; [done|]. by intros [= ?].
Qed.

(** X23. Deleting the selected schema moves the selection to the identifier
    of the first schema of the list as it was before the deletion.  When
    that first schema is another one, it becomes the selected schema; when
    the deleted schema was itself the first, the selection keeps the deleted
    identifier and, its identifier not being empty, no schema is selected,
    also after the effect that selects a first schema when none is
    selected. *)
Theorem handleDeleteSchema_selected st id first rest :
  app_selectedSchemaId st = Some id →
  app_schemas st = first :: rest →
  (FormSchema.id first ≠ id →
   selectedSchema (handleDeleteSchema st id true) = Some first)
  ∧ (FormSchema.id first = id → id ≠ "" →
     app_selectedSchemaId (autoSelect (handleDeleteSchema st id true))
     = Some id
     ∧ selectedSchema (autoSelect (handleDeleteSchema st id true)) = None).
Proof.
  intros Hsel Hschemas. split.
  - intros Hne. unfold selectedSchema. simpl.
    rewrite Hsel, bool_decide_eq_true_2 by done. rewrite Hschemas. simpl.
    rewrite filter_cons_True by done. simpl.
    by rewrite bool_decide_eq_true_2.
  - intros Hfirst Hid.
    assert (autoSelect (handleDeleteSchema st id true)
            = handleDeleteSchema st id true) as ->.
    { unfold autoSelect. simpl.
      rewrite Hsel, bool_decide_eq_true_2 by done. rewrite Hschemas. simpl.
      rewrite Hfirst, (bool_decide_eq_false_2 _ Hid).
      by destruct (filter _ _). }
    unfold selectedSchema. simpl.
    rewrite Hsel, bool_decide_eq_true_2 by done. rewrite Hschemas. simpl.
    rewrite Hfirst. split; [done|]. apply find_filter_none.
Qed.

(** X24. A submitted record becomes the first of the entries shown for the
    selected schema, ahead of the earlier ones, and refers to that schema;
    without a selected schema the submission changes nothing. *)
Theorem handleFormSubmit_prepends st data entryId now :
  match selectedSchema st with
  | Some s =>
      schemaEntries (handleFormSubmit st data entryId now)
      = FormEntry.mk RT entryId (FormSchema.id s) now data
          :: schemaEntries st
  | None => handleFormSubmit st data entryId now = st
  end.
Proof.
  destruct (selectedSchema st) as [s|] eqn:Hs.
  - unfold handleFormSubmit. rewrite Hs.
    unfold schemaEntries.
    assert (selectedSchema
              (mkAppState (app_schemas st)
                 (FormEntry.mk RT entryId (FormSchema.id s) now data
                    :: app_entries st)
                 (app_selectedSchemaId st) (app_activeTab st))
            = Some s) as -> by exact Hs.
    rewrite Hs. simpl. by rewrite filter_cons_True.
  - unfold handleFormSubmit. by rewrite Hs.
Qed.

(** X25. Clearing the entries, once confirmed, empties the entries shown for
    the selected schema and keeps the entries of every other schema. *)
Theorem handleClearEntries_clears_selected st s :
  selectedSchema st = Some s →
  schemaEntries (handleClearEntries st true) = []
  ∧ ∀ j, j ≠ FormSchema.id s →
         filter (λ e, FormEntry.schemaId e = j)
                (app_entries (handleClearEntries st true))
         = filter (λ e, FormEntry.schemaId e = j) (app_entries st).
Proof.
  intros Hs. unfold handleClearEntries. simpl. rewrite Hs. split.
  - unfold schemaEntries.
    assert (selectedSchema
              (mkAppState (app_schemas st)
                 (filter (λ e, FormEntry.schemaId e ≠ FormSchema.id s)
                         (app_entries st))
                 (app_selectedSchemaId st) (app_activeTab st))
            = Some s) as -> by exact Hs.
    simpl. induction (app_entries st) as [|e l IH]; [done|].
    destruct (decide (FormEntry.schemaId e = FormSchema.id s)) as [He|He].
    + by rewrite filter_cons_False by (intros Hn; by apply Hn).
    + rewrite filter_cons_True by done. by rewrite filter_cons_False.
  - intros j Hj. simpl. by apply filter_schemaId_ne.
Qed.

(** X26. A schema created under an identifier that no schema carries yet is
    appended to the schemas and becomes the selected schema; it has no
    fields and the same creation and update time. *)
Theorem handleCreateSchema_selects_new st id now :
  id ∉ (FormSchema.id <$> app_schemas st) →
  ∃ new,
    selectedSchema (handleCreateSchema st id now) = Some new
    ∧ app_schemas (handleCreateSchema st id now)
      = (app_schemas st ++ [new])%list
    ∧ FormSchema.id new = id
    ∧ FormSchema.fields new = []
    ∧ FormSchema.createdAt new = now
    ∧ FormSchema.updatedAt new = now.
Proof.
  intros Hfresh. eexists. split; [|done].
  unfold selectedSchema. simpl.
  induction (app_schemas st) as [|x l IH]; simpl.
  - by rewrite bool_decide_eq_true_2.
  - rewrite fmap_cons, not_elem_of_cons in Hfresh.
    destruct Hfresh as [Hx Hl].
    rewrite bool_decide_eq_false_2 by (intros [= ?]; by apply Hx).
    by apply IH.
Qed.

End AppProperties.

(** ** The data viewer *)

Section ViewerProperties.
Context {A : Type}.
Implicit Types (rows : list A) (page pageSize : nat).
Local Open Scope nat_scope.

Lemma ceilDiv_bounds a b :
  0 < b → a ≤ ceilDiv a b * b ∧ (0 < a → (ceilDiv a b - 1) * b < a).
Proof.
  intros Hb. unfold ceilDiv.
  pose proof (Nat.div_mod_eq a b) as Hdiv.
  pose proof (Nat.mod_upper_bound a b) as Hmod.
  case_bool_decide as Hz; split; try intros Ha; nia.
Qed.

Lemma pageItems_eq rows page pageSize :
  pageItems rows page pageSize
  = take pageSize (drop (currentPage rows page pageSize * pageSize) rows).
Proof. unfold pageItems, slice. f_equal. lia. Qed.

(** X27. With a positive page size the page shown always exists: the current
    page is below the page count, it holds at most [pageSize] rows, and it
    holds at least one row as soon as there is a row at all, whatever page
    number is stored. *)
Theorem pageItems_bounds rows page pageSize :
  0 < pageSize →
  currentPage rows page pageSize < pageCount rows pageSize
  ∧ length (pageItems rows page pageSize) ≤ pageSize
  ∧ (rows ≠ [] → pageItems rows page pageSize ≠ []).
Proof.
  intros Hps.
  destruct (ceilDiv_bounds (length rows) pageSize Hps) as [Hup Hlow].
  assert (currentPage rows page pageSize < pageCount rows pageSize) as Hcur.
  { unfold currentPage, pageCount. lia. }
  split; [done|]. rewrite pageItems_eq. split.
  - rewrite length_take. lia.
  - intros Hrows Hnil.
    assert (0 < length rows) as Hlen by (destruct rows; [done|simpl; lia]).
    apply (f_equal length) in Hnil.
    rewrite length_take, length_drop in Hnil. simpl in Hnil.
    specialize (Hlow Hlen).
    unfold currentPage, pageCount in *. nia.
Qed.

Lemma take_add_drop (l : list A) a b :
  take (a + b) l = (take a l ++ take b (drop a l))%list.
Proof.
  revert l. induction a as [|a IH]; intros l; [done|].
  destruct l as [|x l]; simpl; [by rewrite take_nil|]. by rewrite IH.
Qed.

Lemma concat_pages_prefix rows pageSize n :
  concat ((λ p, take pageSize (drop (p * pageSize) rows)) <$> seq 0 n)
  = take (n * pageSize) rows.
Proof.
  induction n as [|n IH]; [done|].
  rewrite seq_S, fmap_app, concat_app, IH. simpl. rewrite app_nil_r.
  rewrite <- take_add_drop. f_equal. lia.
Qed.

(** X28. With a positive page size the pages partition the rows: the pages
    numbered from 0 up to the page count, put one after the other, are
    exactly the rows, each row on one page and in the same order. *)
Theorem pages_partition_rows rows pageSize :
  0 < pageSize →
  concat ((λ p, pageItems rows p pageSize)
            <$> seq 0 (pageCount rows pageSize))
  = rows.
Proof.
  intros Hps.
  destruct (ceilDiv_bounds (length rows) pageSize Hps) as [Hup _].
  rewrite (list_fmap_ext _
             (λ p, take pageSize (drop (p * pageSize) rows))).
  - rewrite concat_pages_prefix. apply take_ge.
    unfold pageCount. etrans; [exact Hup|].
    apply Nat.mul_le_mono_r. lia.
  - intros i p [-> Hi]%lookup_seq. rewrite pageItems_eq.
    unfold currentPage.
    assert ((0 + i) `min` (pageCount rows pageSize - 1) = 0 + i) as ->
      by lia.
    done.
Qed.

End ViewerProperties.

Section CsvProperties.

Lemma doubleQuotes_inj a : ∀ b, doubleQuotes a = doubleQuotes b → a = b.
Proof.
  induction a as [|c a IH]; intros [|d b]; simpl.
  - done.
  - by case_bool_decide.
  - by case_bool_decide.
  - do 2 case_bool_decide; intros Heq; simplify_eq.
    + f_equal. by apply IH.
    + f_equal. by apply IH.
Qed.

Lemma append_quote_inj (a b : string) (q : ascii) :
  a +:+ String q EmptyString = b +:+ String q EmptyString → a = b.
Proof.
  revert b. induction a as [|c a IH]; intros [|d b].
  - done.
  - change (String q EmptyString
            = String d (b +:+ String q EmptyString) → EmptyString = String d b).
    intros [= _ Hb]. by destruct b.
  - change (String c (a +:+ String q EmptyString)
            = String q EmptyString → String c a = EmptyString).
    intros [= _ Ha]. by destruct a.
  - change (String c (a +:+ String q EmptyString)
            = String d (b +:+ String q EmptyString) → String c a = String d b).
    intros [= -> Hab]. f_equal. by apply IH.
Qed.

(** X29. The escaping of a cell of the CSV export loses nothing: two values
    with the same escaped text are the same value. *)
Theorem escape_injective (val1 val2 : string) :
  escape val1 = escape val2 → val1 = val2.
Proof.
  unfold escape. intros [= Heq].
  by apply doubleQuotes_inj, (append_quote_inj _ _ dquote).
Qed.

End CsvProperties.

(** ** The further properties at work on the examples *)

Section MoreInstances.
Import RefRuntime Examples MoreExamples.

Lemma ref_trim_leading_space : trim_leading_space.
Proof. intros s. reflexivity. Qed.

Lemma personSchema_age_last : lastWithName personSchema age.
Proof.
  exists [], [code; choice]. split; [done|].
  intros g Hg. apply elem_of_cons in Hg as [->|Hg]; [done|].
  apply elem_of_cons in Hg as [->|Hg]; [done|]. by apply elem_of_nil in Hg.
Qed.



Lemma errors_entry_iff_some_field_fails_witness :
  ordinaryIds personSchema
  ∧ is_Some ((validate personSchema badCode).1 !! "f_code").
Proof.
  split; [exact personSchema_ordinaryIds|].
  apply (errors_entry_iff_some_field_fails personSchema badCode "f_code"
           personSchema_ordinaryIds).
  exists code. split; [simpl; right; left|]. split; [reflexivity|].
  exists "Value does not match required format". reflexivity.
Defined.

Lemma submit_iff_every_field_passes_witness :
  ordinaryIds personSchema
  ∧ is_Some (handleSubmit personSchema goodInput)
  ∧ ∀ f, f ∈ FormSchema.fields personSchema →
         fieldError goodInput f = None.
Proof.
  assert (is_Some (handleSubmit personSchema goodInput)) as Hsome
    by (eexists; reflexivity).
  split; [exact personSchema_ordinaryIds|]. split; [exact Hsome|].
  exact (proj1 (submit_iff_every_field_passes personSchema goodInput
                  personSchema_ordinaryIds) Hsome).
Defined.

Lemma submitted_number_within_bounds_witness :
  Number_ignores_trim
  ∧ ordinaryIds personSchema
  ∧ handleSubmit personSchema goodInput
    = Some (coerce personSchema goodInput)
  ∧ lastWithName personSchema age
  ∧ FieldSchema.name age ≠ "__proto__"
  ∧ FieldSchema.type age = number
  ∧ String_trim (default "" (goodInput !! FieldSchema.id age)) ≠ ""
  ∧ ∃ n, coerce personSchema goodInput !! FieldSchema.name age
         = Some (VNumber n)
         ∧ n = Number
                 (String_trim (default "" (goodInput !! FieldSchema.id age)))
         ∧ Number_isNaN n = false
         ∧ (∀ lo, FieldSchema.min age = Some lo → num_lt n lo = false)
         ∧ (∀ hi, FieldSchema.max age = Some hi → num_lt hi n = false).
Proof.
  assert (String_trim (default "" (goodInput !! FieldSchema.id age)) ≠ "")
    as Hne by (by vm_compute).
  assert (FieldSchema.name age ≠ "__proto__") as Hproto by discriminate.
  split; [exact ref_Number_ignores_trim|].
  split; [exact personSchema_ordinaryIds|]. split; [reflexivity|].
  split; [exact personSchema_age_last|]. split; [exact Hproto|].
  split; [reflexivity|]. split; [exact Hne|].
  exact (submitted_number_within_bounds personSchema goodInput
           (coerce personSchema goodInput) age ref_Number_ignores_trim
           personSchema_ordinaryIds eq_refl personSchema_age_last Hproto
           eq_refl Hne).
Defined.

Lemma submitted_required_not_blank_witness :
  ordinaryIds personSchema
  ∧ handleSubmit personSchema goodInput = Some (coerce personSchema goodInput)
  ∧ age ∈ FormSchema.fields personSchema
  ∧ FieldSchema.required age = Some true
  ∧ String_trim (default "" (goodInput !! FieldSchema.id age)) ≠ "".
Proof.
  assert (age ∈ FormSchema.fields personSchema) as Hin by (simpl; left).
  split; [exact personSchema_ordinaryIds|].
  split; [reflexivity|]. split; [exact Hin|]. split; [reflexivity|].
  exact (submitted_required_not_blank personSchema goodInput
           (coerce personSchema goodInput) age personSchema_ordinaryIds
           eq_refl Hin eq_refl).
Defined.

Lemma submitted_text_matches_pattern_witness :
  ordinaryIds personSchema
  ∧ handleSubmit personSchema goodInput = Some (coerce personSchema goodInput)
  ∧ code ∈ FormSchema.fields personSchema
  ∧ FieldSchema.type code = text
  ∧ FieldSchema.pattern code = Some "abc"
  ∧ "abc" ≠ ""
  ∧ RegExp "abc" = Some "abc"
  ∧ String_trim (default "" (goodInput !! FieldSchema.id code)) ≠ ""
  ∧ RegExp_test ("abc" : RegExpObj)
      (String_trim (default "" (goodInput !! FieldSchema.id code)))
    = true.
Proof.
  assert (code ∈ FormSchema.fields personSchema) as Hin
    by (simpl; right; left).
  assert ("abc" ≠ "") as Hp by discriminate.
  assert (String_trim (default "" (goodInput !! FieldSchema.id code)) ≠ "")
    as Hne by (by vm_compute).
  split; [exact personSchema_ordinaryIds|].
  split; [reflexivity|]. split; [exact Hin|]. split; [reflexivity|].
  split; [reflexivity|]. split; [exact Hp|]. split; [reflexivity|].
  split; [exact Hne|].
  exact (submitted_text_matches_pattern personSchema goodInput
           (coerce personSchema goodInput) code "abc" "abc"
           personSchema_ordinaryIds eq_refl Hin eq_refl eq_refl Hp eq_refl
           Hne).
Defined.

Lemma protoSchema_ordinaryIds : ordinaryIds protoSchema.
Proof. apply (bool_decide_unpack _). by vm_compute. Qed.

Lemma coerce_keys_are_field_names_witness :
  ordinaryIds protoSchema
  ∧ dom (coerce protoSchema protoInput)
    = list_to_set
        (filter (λ n, n ≠ "__proto__")
                (FieldSchema.name <$> FormSchema.fields protoSchema)).
Proof.
  split; [exact protoSchema_ordinaryIds|].
  exact (coerce_keys_are_field_names protoSchema protoInput
           protoSchema_ordinaryIds).
Defined.

Lemma submit_outcome_witness :
  ordinaryIds personSchema
  ∧ (submit personSchema (mkFormState goodInput ∅)).2
    = Some (coerce personSchema goodInput)
  ∧ st_values (submit personSchema (mkFormState goodInput ∅)).1 !! "f_age"
    = Some "".
Proof.
  assert ((submit personSchema (mkFormState goodInput ∅)).2
          = Some (coerce personSchema goodInput)) as Heq by reflexivity.
  pose proof (submit_outcome personSchema (mkFormState goodInput ∅)
                personSchema_ordinaryIds) as Hout.
  rewrite Heq in Hout. destruct Hout as (_ & _ & Hreset).
  split; [exact personSchema_ordinaryIds|]. split; [exact Heq|].
  exact (Hreset "f_age").
Defined.

Lemma updateField_frame_witness :
  FieldPatch.id (typeOnlyPatch date) = None
  ∧ FieldSchema.id <$>
      FormSchema.fields
        (updateField personSchema "f_code" (typeOnlyPatch date) "t1")
    = FieldSchema.id <$> FormSchema.fields personSchema
  ∧ FormSchema.fields
      (updateField personSchema "f_code" (typeOnlyPatch date) "t1") !! 0
    = Some age.
Proof.
  destruct (updateField_frame personSchema "f_code" (typeOnlyPatch date) "t1"
              eq_refl) as (Hids & _ & Hframe).
  split; [reflexivity|]. split; [exact Hids|].
  apply Hframe; [reflexivity|discriminate].
Defined.

Lemma personSchema_fresh_id :
  "f_new" ∉ (FieldSchema.id <$> FormSchema.fields personSchema).
Proof. apply (bool_decide_unpack _). by vm_compute. Qed.

Lemma addField_appends_default_field_witness :
  uniqueIds personSchema
  ∧ ("f_new" ∉ (FieldSchema.id <$> FormSchema.fields personSchema))
  ∧ uniqueIds (addField personSchema "f_new" "t1").
Proof.
  split; [exact personSchema_uniqueIds|].
  split; [exact personSchema_fresh_id|].
  exact (proj1 (addField_appends_default_field personSchema "f_new" "t1"
                  personSchema_uniqueIds personSchema_fresh_id)).
Defined.

Lemma removeField_addField_witness :
  ("f_new" ∉ (FieldSchema.id <$> FormSchema.fields personSchema))
  ∧ FormSchema.fields
      (removeField (addField personSchema "f_new" "t1") "f_new" "t2")
    = FormSchema.fields personSchema.
Proof.
  split; [exact personSchema_fresh_id|].
  exact (removeField_addField personSchema "f_new" "t1" "t2"
           personSchema_fresh_id).
Defined.

Lemma updateField_twice_witness :
  FieldPatch.id (typeOnlyPatch number) = None
  ∧ FormSchema.fields
      (updateField
         (updateField personSchema "f_choice" (typeOnlyPatch number) "t1")
         "f_choice" (handleTypeChange date) "t2")
    = FormSchema.fields
        (updateField personSchema "f_choice"
           (thenPatch (typeOnlyPatch number) (handleTypeChange date)) "t2").
Proof.
  split; [reflexivity|].
  exact (updateField_twice personSchema "f_choice" (typeOnlyPatch number)
           (handleTypeChange date) "t1" "t2" eq_refl).
Defined.

Lemma cleared_pattern_accepts_everything_witness :
  FieldSchema.type code = text
  ∧ String_trim (default "" (badCode !! FieldSchema.id code)) ≠ ""
  ∧ fieldError badCode code = Some "Value does not match required format"
  ∧ fieldError badCode (spreadField code (handlePatternChange "")) = None.
Proof.
  assert (String_trim (default "" (badCode !! FieldSchema.id code)) ≠ "")
    as Hne by (by vm_compute).
  split; [reflexivity|]. split; [exact Hne|]. split; [reflexivity|].
  exact (proj2 (cleared_pattern_accepts_everything badCode code eq_refl
                  Hne)).
Defined.

Lemma parseOptions_trailing_comma_witness :
  trim_empty ∧ parseOptions ("A, B" +:+ ",") = parseOptions "A, B".
Proof.
  split; [exact ref_trim_empty|].
  exact (parseOptions_trailing_comma "A, B" ref_trim_empty).
Defined.

Lemma parseOptions_optionsText_witness :
  trim_empty
  ∧ trim_leading_space
  ∧ Forall cleanOption ["A"; "B"]
  ∧ optionsText choice = "A, B"
  ∧ parseOptions (optionsText choice) = ["A"; "B"].
Proof.
  assert (Forall cleanOption ["A"; "B"]) as Hclean.
  { repeat apply Forall_cons_2; [| |apply Forall_nil_2];
      (split; [discriminate|split; reflexivity]). }
  split; [exact ref_trim_empty|]. split; [exact ref_trim_leading_space|].
  split; [exact Hclean|]. split; [reflexivity|].
  exact (parseOptions_optionsText ["A"; "B"] ref_trim_empty
           ref_trim_leading_space Hclean).
Defined.

Lemma editSelected_selects_edited_witness :
  selectedSchema appState = Some personSchema
  ∧ selectedSchema (editSelected appState (RemoveField "f_code") "t1")
    = Some (dispatch personSchema (RemoveField "f_code") "t1").
Proof.
  split; [reflexivity|].
  exact (editSelected_selects_edited appState personSchema
           (RemoveField "f_code") "t1" eq_refl).
Defined.

Lemma handleDeleteSchema_keeps_other_selection_witness :
  app_selectedSchemaId appState ≠ Some "schema2"
  ∧ selectedSchema (handleDeleteSchema appState "schema2" true)
    = Some personSchema
  ∧ schemaEntries (handleDeleteSchema appState "schema2" true)
    = [entryOf "e3" "schema1"; entryOf "e1" "schema1"].
Proof.
  assert (app_selectedSchemaId appState ≠ Some "schema2") as Hne
    by discriminate.
  destruct (handleDeleteSchema_keeps_other_selection appState "schema2" true
              Hne) as (_ & Hsel & Hentries).
  split; [exact Hne|]. split.
  - rewrite Hsel. reflexivity.
  - rewrite Hentries. reflexivity.
Defined.

Lemma handleDeleteSchema_selected_witness :
  app_selectedSchemaId appState = Some "schema1"
  ∧ app_schemas appState = [personSchema; otherSchema]
  ∧ FormSchema.id personSchema = "schema1"
  ∧ "schema1" ≠ ""
  ∧ app_schemas (handleDeleteSchema appState "schema1" true) = [otherSchema]
  ∧ selectedSchema (autoSelect (handleDeleteSchema appState "schema1" true))
    = None.
Proof.
  assert ("schema1" ≠ "") as Hne by discriminate.
  split; [reflexivity|]. split; [reflexivity|]. split; [reflexivity|].
  split; [exact Hne|]. split; [reflexivity|].
  exact (proj2 (proj2 (handleDeleteSchema_selected appState "schema1"
                         personSchema [otherSchema] eq_refl eq_refl)
                  eq_refl Hne)).
Defined.

Lemma handleClearEntries_clears_selected_witness :
  selectedSchema appState = Some personSchema
  ∧ schemaEntries (handleClearEntries appState true) = []
  ∧ app_entries (handleClearEntries appState true)
    = [entryOf "e2" "schema2"].
Proof.
  split; [reflexivity|]. split; [|reflexivity].
  exact (proj1 (handleClearEntries_clears_selected appState personSchema
                  eq_refl)).
Defined.

Lemma appState_fresh_id :
  "schema3" ∉ (FormSchema.id <$> app_schemas appState).
Proof. apply (bool_decide_unpack _). by vm_compute. Qed.

Lemma handleCreateSchema_selects_new_witness :
  ("schema3" ∉ (FormSchema.id <$> app_schemas appState))
  ∧ ∃ new,
      selectedSchema (handleCreateSchema appState "schema3" "t1") = Some new
      ∧ app_schemas (handleCreateSchema appState "schema3" "t1")
        = (app_schemas appState ++ [new])%list
      ∧ FormSchema.id new = "schema3"
      ∧ FormSchema.fields new = []
      ∧ FormSchema.createdAt new = "t1"
      ∧ FormSchema.updatedAt new = "t1".
Proof.
  split; [exact appState_fresh_id|].
  exact (handleCreateSchema_selects_new appState "schema3" "t1"
           appState_fresh_id).
Defined.

Lemma pageItems_bounds_witness :
  (0 < 2)%nat
  ∧ [10; 20; 30]%nat ≠ []
  ∧ pageItems [10; 20; 30]%nat 7 2 ≠ []
  ∧ pageItems [10; 20; 30]%nat 7 2 = [30]%nat.
Proof.
  assert (0 < 2)%nat as Hps by lia.
  assert ([10; 20; 30]%nat ≠ []) as Hrows by discriminate.
  split; [exact Hps|]. split; [exact Hrows|]. split; [|reflexivity].
  exact (proj2 (proj2 (pageItems_bounds [10; 20; 30]%nat 7 2 Hps)) Hrows).
Defined.

Lemma pages_partition_rows_witness :
  (0 < 2)%nat
  ∧ concat ((λ p, pageItems [10; 20; 30]%nat p 2)
              <$> seq 0 (pageCount [10; 20; 30]%nat 2))
    = [10; 20; 30]%nat.
Proof.
  assert (0 < 2)%nat as Hps by lia.
  split; [exact Hps|].
  exact (pages_partition_rows [10; 20; 30]%nat 2 Hps).
Defined.

Lemma escape_injective_witness :
  escape "a,b" = escape "a,b" ∧ "a,b" = "a,b".
Proof.
  split; [reflexivity|]. exact (escape_injective "a,b" "a,b" eq_refl).
Defined.

End MoreInstances.
